(** * Solar-system viewer: a shallow embedding of [index.mjs]

    The development follows the JavaScript module top to bottom:
    - [JS]: the parts of the language runtime the module relies on
      (IEEE-754 numbers, [Date], [String.prototype.toLowerCase]);
    - the two external interfaces, [MathImpl] for the implementation-approximated
      [Math] functions and [Solarplanets] for the [solarplanets] package;
    - the module's constants, its mutable state ([window.app], [catalog], the
      part of the DOM it touches) and a state-and-exception monad for its
      functions;
    - the functions [buildPlanet], [getJdFromDatetime], [buildOrbitTrace],
      [openDialog], [processCollision], [animate], the pointer handlers and
      [onWindowLoad];
    - the properties of the propagation core. *)

From Stdlib Require Import ZArith List String Ascii Lia.
From Stdlib Require Import Floats.PrimFloat Floats.SpecFloat Floats.FloatOps.
From Stdlib Require Import Floats.FloatAxioms.
From stdpp Require Import gmap strings.

Set Warnings "-inexact-float".

Local Open Scope Z_scope.

(* ===================================================================== *)
(** * The JavaScript runtime *)
(* ===================================================================== *)

Module JS.

(** A JavaScript Number is an IEEE-754 binary64 value, a [float]. *)

Definition Math_PI : float := 0x1.921fb54442d18p+1%float.

Definition Math_sqrt : float -> float := PrimFloat.sqrt.

(** Truncation towards zero (ToIntegerOrInfinity on a finite Number).
    Below 2^52 adding and subtracting 2^52 rounds to an integer, which is
    then corrected downwards; from 2^52 on every binary64 is an integer. *)
Definition two52 : float := 0x1p+52%float.

Definition trunc (x : float) : float :=
  let a := abs x in
  if (two52 <=? a)%float then x
  else
    let r := ((a + two52) - two52)%float in
    let t := if (a <? r)%float then (r - 1)%float else r in
    if (x <? 0)%float then (- t)%float else t.

(** [Math.floor]. *)
Definition Math_floor (x : float) : float :=
  let t := trunc x in
  if (x <? t)%float then (t - 1)%float else t.

(** The mathematical value of an integral Number; [None] for NaN and the
    infinities. *)
Definition to_Z (x : float) : option Z :=
  match Prim2SF x with
  | S754_zero _ => Some 0
  | S754_finite s m e =>
      let v := Z.shiftl (Z.pos m) e in
      Some (if s then - v else v)
  | S754_infinity _ | S754_nan => None
  end.

(** The Number of a (small) integer. *)
Definition of_Z (z : Z) : float :=
  if z <? 0 then (- of_uint63 (Uint63Axioms.of_Z (- z)))%float
  else of_uint63 (Uint63Axioms.of_Z z).

(** ** Date

    A Date object holds a time value: an integral number of milliseconds
    since 1970-01-01T00:00:00Z, or NaN. *)

Record Date : Set := mkDate { valueOf : float }.

Definition TimeClip (t : float) : float :=
  if negb (is_finite t) then nan
  else if (8.64e15 <? abs t)%float then nan
  else (trunc t + 0)%float.

(** [new Date(value)] for a Number argument. *)
Definition new_Date (value : float) : Date := mkDate (TimeClip value).

Definition msPerDay : Z := 86400000.
Definition msPerHour : Z := 3600000.
Definition msPerMinute : Z := 60000.
Definition msPerSecond : Z := 1000.

Definition Day (t : Z) : Z := t / msPerDay.

Definition DayFromYear (y : Z) : Z :=
  365 * (y - 1970) + (y - 1969) / 4 - (y - 1901) / 100 + (y - 1601) / 400.

Definition TimeFromYear (y : Z) : Z := msPerDay * DayFromYear y.

Definition DaysInYear (y : Z) : Z :=
  if negb (y mod 4 =? 0) then 365
  else if negb (y mod 100 =? 0) then 366
  else if negb (y mod 400 =? 0) then 365
  else 366.

(** The largest [y] with [TimeFromYear y <= t], searched downwards from a
    year that is certainly not before the answer. *)
Fixpoint year_search (fuel : nat) (y t : Z) : Z :=
  match fuel with
  | O => y
  | S k => if TimeFromYear y <=? t then y else year_search k (y - 1) t
  end.

Definition YearFromTime (t : Z) : Z :=
  let d := Day t in
  year_search 2000 (1971 + Z.max (d / 365) (d / 366)) t.

Definition DayWithinYear (t : Z) : Z := Day t - DayFromYear (YearFromTime t).

Definition InLeapYear (t : Z) : Z :=
  if DaysInYear (YearFromTime t) =? 366 then 1 else 0.

Definition MonthFromTime (t : Z) : Z :=
  let d := DayWithinYear t in
  let l := InLeapYear t in
  if d <? 31 then 0
  else if d <? 59 + l then 1
  else if d <? 90 + l then 2
  else if d <? 120 + l then 3
  else if d <? 151 + l then 4
  else if d <? 181 + l then 5
  else if d <? 212 + l then 6
  else if d <? 243 + l then 7
  else if d <? 273 + l then 8
  else if d <? 304 + l then 9
  else if d <? 334 + l then 10
  else 11.

Definition DateFromTime (t : Z) : Z :=
  let d := DayWithinYear t in
  let l := InLeapYear t in
  match MonthFromTime t with
  | 0 => d + 1
  | 1 => d - 30
  | 2 => d - 58 - l
  | 3 => d - 89 - l
  | 4 => d - 119 - l
  | 5 => d - 150 - l
  | 6 => d - 180 - l
  | 7 => d - 211 - l
  | 8 => d - 242 - l
  | 9 => d - 272 - l
  | 10 => d - 303 - l
  | _ => d - 333 - l
  end.

Definition HourFromTime (t : Z) : Z := (t / msPerHour) mod 24.
Definition MinFromTime (t : Z) : Z := (t / msPerMinute) mod 60.
Definition SecFromTime (t : Z) : Z := (t / msPerSecond) mod 60.
Definition msFromTime (t : Z) : Z := t mod msPerSecond.

(** A UTC getter returns NaN on an invalid Date. *)
Definition utc_field (f : Z -> Z) (dt : Date) : float :=
  match to_Z (valueOf dt) with
  | Some t => of_Z (f t)
  | None => nan
  end.

Definition getUTCFullYear : Date -> float := utc_field YearFromTime.
Definition getUTCMonth : Date -> float := utc_field MonthFromTime.
Definition getUTCDate : Date -> float := utc_field DateFromTime.
Definition getUTCHours : Date -> float := utc_field HourFromTime.
Definition getUTCMinutes : Date -> float := utc_field MinFromTime.
Definition getUTCSeconds : Date -> float := utc_field SecFromTime.
Definition getUTCMilliseconds : Date -> float := utc_field msFromTime.

(** ** Strings

    [toLowerCase] on the ASCII range, which covers every name the module
    handles. *)
Definition lower_ascii (c : ascii) : ascii :=
  let n := nat_of_ascii c in
  if ((65 <=? n) && (n <=? 90))%nat then ascii_of_nat (n + 32) else c.

Fixpoint toLowerCase (s : string) : string :=
  match s with
  | EmptyString => EmptyString
  | String c r => String (lower_ascii c) (toLowerCase r)
  end.

End JS.

Import JS.

(* ===================================================================== *)
(** * External interfaces *)
(* ===================================================================== *)

Record Vector2 : Set := mkVector2 { x2 : float; y2 : float }.
Record Vector3 : Set := mkVector3 { vx : float; vy : float; vz : float }.

(** A record of the catalog: the parsed JSON object of one body.  The module
    itself reads [a_au] and [da_au]; the other properties are only handed on
    to the propagator. *)
Record Elements : Set := mkElements {
  a_au : float;
  da_au : float;
  other_properties : list (string * float)
}.

(** The [Math] functions whose results are implementation-approximated. *)
Class MathImpl : Set := {
  Math_cos : float -> float;
  Math_sin : float -> float;
  Math_pow : float -> float -> float
}.

(** The functions imported from the [solarplanets] package.  The propagator
    returns the pair of arrays [[r, v]]; each array is read at its indices
    0, 1 and 2. *)
Class Solarplanets : Set := {
  getJ0FromDatevec : float -> float -> float -> float;
  getUtFromTimevec : float -> float -> float -> float;
  getJdFromDateTime : float -> float -> float;
  getJulianCenturies : float -> float;
  getCurrentElements : float -> float -> float -> float;
  getRvFromElementsDatetime : Elements -> Date -> Vector3 * Vector3
}.

(* ===================================================================== *)
(** * Module constants *)
(* ===================================================================== *)

Definition spatialScale : float := 5e-1%float.
Definition MU_SUN_KM3PS2 : float := 1.327e11%float.

Record Planet : Set := mkPlanet {
  name : string;
  radius_km : float;
  semiMajorAxis_km : float;
  orbitalPeriod_days : float;
  approximateColor_hex : Z
}.

Definition planets : list Planet := [
  mkPlanet "Mercury" 2.4e3 57.91e6 87.9691 0x666666;
  mkPlanet "Venus" 6.051e3 108.21e6 224.701 0xaaaa77;
  mkPlanet "Earth" 6.3781e3 1.49898023e8 365.256 0x33bb33;
  mkPlanet "Mars" 3.389e3 2.27939366e8 686.980 0xbb3333;
  mkPlanet "Jupiter" 6.9911e4 7.78479e8 4332.59 0xaa7722;
  mkPlanet "Saturn" 5.8232e4 1.43353e9 10755.7 0xccaa55;
  mkPlanet "Uranus" 2.5362e4 2.870972e9 30688.5 0x7777ff;
  mkPlanet "Neptune" 2.4622e4 4.50e9 60195 0x4422aa
].

(* ===================================================================== *)
(** * Program state *)
(* ===================================================================== *)

(** What the module needs of a scene-graph node: its name, its position and
    scale, and what it draws. *)
Inductive Geometry : Set :=
  | AxesHelper (size : float)
  | SphereGeometry (radius : float) (widthSegments heightSegments : Z)
  | BufferGeometry (points : list Vector3).

Record Object3D : Set := mkObject3D {
  obj_name : string;
  position : Vector3;
  scale : Vector3;
  geometry : Geometry;
  color : option Z
}.

Definition set_position (p : Vector3) (o : Object3D) : Object3D :=
  mkObject3D (obj_name o) p (scale o) (geometry o) (color o).

(** Objects created by the external libraries that the module stores but
    never inspects.  A handle stands for the reference and records what the
    module gave the object: the arguments of the camera's constructor, the
    size set on the renderer.  A camera also carries its pose, position and
    up vector, for as long as the module is the only one to write it; once
    controls have been created on the camera the pose is theirs, rewritten
    by the library when they are created and on every [controls.update()],
    and the handle holds [None].  The controls record the pose they started
    from. *)
Inductive Handle : Set :=
  | PerspectiveCamera (fov aspect near far : float)
      (pose : option (Vector3 * Vector3))
  | WebGLRenderer (width height : float)
  | OrbitControls (start : option (Vector3 * Vector3))
  | Raycaster.

Definition camera_pose (h : Handle) : option (Vector3 * Vector3) :=
  match h with
  | PerspectiveCamera _ _ _ _ pose => pose
  | _ => None
  end.

Definition set_pose (f : Vector3 * Vector3 -> option (Vector3 * Vector3))
    (h : Handle) : Handle :=
  match h with
  | PerspectiveCamera fov aspect near far pose =>
      PerspectiveCamera fov aspect near far (pose ≫= f)
  | _ => h
  end.

(** An element the module appends to [document.body]: the canvas of the
    renderer, with the size set on the renderer. *)
Inductive Element : Set :=
  | Canvas (width height : float).

(** [window.app].  The scene is the list of the children of the
    [THREE.Scene], in insertion order; every field the module initialises
    with [null] is an [option]. *)
Record App : Set := mkApp {
  renderer : option Handle;
  scene : option (list Object3D);
  camera : option Handle;
  controls : option Handle;
  raycaster : option Handle;
  mouse_pos : Vector2;
  is_mouse_down : bool;
  clock : Date;
  isPaused : bool
}.

(** The [.DialogContent] element, when [document.body.querySelector] finds
    one: its [innerHTML] and the [style.display] of its [parentElement].  An
    element found under [body] always has a parent element, so the two come
    together. *)
Record Dialog : Set := mkDialog {
  innerHTML : string;
  parent_display : string
}.

(** The part of the document the module works on.  [articles] gives, for a
    class name [c], the [innerHTML] of the first element under [body] that
    matches the selector [.c]; [dialog] is the [.DialogContent] element,
    [None] when there is none; [dialogBackground] tells whether
    [body.querySelector(".DialogBackground")] finds an element;
    [body_appended] lists what the module has appended to [body].  The
    articles are taken to lie outside the dialog and to hold no elements
    with a planet's class of their own, so that filling the dialog does not
    change what the selectors find. *)
Record Dom : Set := mkDom {
  articles : gmap string string;
  dialog : option Dialog;
  dialogBackground : bool;
  body_appended : list Element
}.

Definition dialogContent (d : Dom) : option string := innerHTML <$> dialog d.
Definition dialogDisplay (d : Dom) : option string :=
  parent_display <$> dialog d.

(** Everything a function of the module can read or write: [window.app],
    the module variable [catalog], the document, and the instant the next
    [new Date()] returns.  The catalog is the object [JSON.parse] returns,
    keyed by its own properties, each of them an element record; the body
    names the module looks up are none of the names every object
    inherits. *)
Record World : Set := mkWorld {
  app : App;
  catalog : gmap string Elements;
  dom : Dom;
  wall : Date
}.

Definition with_app (f : App -> App) (w : World) : World :=
  mkWorld (f (app w)) (catalog w) (dom w) (wall w).
Definition with_dom (f : Dom -> Dom) (w : World) : World :=
  mkWorld (app w) (catalog w) (f (dom w)) (wall w).
Definition with_catalog (c : gmap string Elements) (w : World) : World :=
  mkWorld (app w) c (dom w) (wall w).
Definition with_wall (t : Date) (w : World) : World :=
  mkWorld (app w) (catalog w) (dom w) t.

Definition set_scene (s : option (list Object3D)) (a : App) : App :=
  mkApp (renderer a) s (camera a) (controls a) (raycaster a)
        (mouse_pos a) (is_mouse_down a) (clock a) (isPaused a).
Definition set_renderer (h : option Handle) (a : App) : App :=
  mkApp h (scene a) (camera a) (controls a) (raycaster a)
        (mouse_pos a) (is_mouse_down a) (clock a) (isPaused a).
Definition set_camera (h : option Handle) (a : App) : App :=
  mkApp (renderer a) (scene a) h (controls a) (raycaster a)
        (mouse_pos a) (is_mouse_down a) (clock a) (isPaused a).
Definition set_controls (h : option Handle) (a : App) : App :=
  mkApp (renderer a) (scene a) (camera a) h (raycaster a)
        (mouse_pos a) (is_mouse_down a) (clock a) (isPaused a).
Definition set_raycaster (h : option Handle) (a : App) : App :=
  mkApp (renderer a) (scene a) (camera a) (controls a) h
        (mouse_pos a) (is_mouse_down a) (clock a) (isPaused a).
Definition set_clock (t : Date) (a : App) : App :=
  mkApp (renderer a) (scene a) (camera a) (controls a) (raycaster a)
        (mouse_pos a) (is_mouse_down a) t (isPaused a).
Definition set_isPaused (b : bool) (a : App) : App :=
  mkApp (renderer a) (scene a) (camera a) (controls a) (raycaster a)
        (mouse_pos a) (is_mouse_down a) (clock a) b.
Definition set_is_mouse_down (b : bool) (a : App) : App :=
  mkApp (renderer a) (scene a) (camera a) (controls a) (raycaster a)
        (mouse_pos a) b (clock a) (isPaused a).
Definition set_mouse_pos (p : Vector2) (a : App) : App :=
  mkApp (renderer a) (scene a) (camera a) (controls a) (raycaster a)
        p (is_mouse_down a) (clock a) (isPaused a).

(* ===================================================================== *)
(** * State and exceptions *)
(* ===================================================================== *)

Inductive JsError : Set :=
  | TypeError (reading : string)
  | SyntaxError (source : string)
  | GenericError (message : string).

(** The outcome of a call: a value, a thrown exception, or a loop of the
    model cut short by its iteration budget. *)
Inductive Result (A : Type) : Type :=
  | Ok (a : A)
  | Throw (e : JsError)
  | OutOfFuel.
Arguments Ok {A} a.
Arguments Throw {A} e.
Arguments OutOfFuel {A}.

(** A computation reads and writes the world; what it wrote before throwing
    stays written. *)
Definition M (A : Type) : Type := World -> Result A * World.

Definition ret {A} (a : A) : M A := fun w => (Ok a, w).
Definition bind {A B} (m : M A) (k : A -> M B) : M B :=
  fun w =>
    match m w with
    | (Ok a, w') => k a w'
    | (Throw e, w') => (Throw e, w')
    | (OutOfFuel, w') => (OutOfFuel, w')
    end.
Definition throw {A} (e : JsError) : M A := fun w => (Throw e, w).
Definition gets {A} (f : World -> A) : M A := fun w => (Ok (f w), w).
Definition modify (f : World -> World) : M unit := fun w => (Ok tt, f w).

Declare Scope js_scope.
Delimit Scope js_scope with js.
Notation "'let*' x ':=' m 'in' k" := (bind m (fun x => k))
  (at level 10, x name, m at level 100, k at level 200) : js_scope.
Notation "m ';;' k" := (bind m (fun _ => k))
  (at level 100, k at level 200, right associativity) : js_scope.
Local Open Scope js_scope.

(** Reading a property of, or calling a method on, [undefined] or [null]
    throws a TypeError. *)
Definition deref {A} (what : string) (o : option A) : M A :=
  match o with
  | Some a => ret a
  | None => throw (TypeError what)
  end.

(** Truthiness of a value that is either an object or [undefined]/[null]. *)
Definition truthy {A} (o : option A) : bool :=
  match o with Some _ => true | None => false end.

(** [Array.prototype.forEach]: the callback runs on each element in turn and
    an exception leaves the loop. *)
Fixpoint forEach {A} (l : list A) (f : A -> M unit) : M unit :=
  match l with
  | [] => ret tt
  | a :: r => f a ;; forEach r f
  end.

Definition exec {A} (m : M A) (w : World) : World := snd (m w).
Definition outcome {A} (m : M A) (w : World) : Result A := fst (m w).

(** A counting loop [for (var i = start; i < bound; i += 1) body] over a
    local array.  The counter is a Number; the iteration budget only bounds
    the recursion of the model, and [None] reports that it ran out. *)
Fixpoint for_loop {A} (fuel : nat) (i bound : float)
    (body : float -> A -> A) (acc : A) : option A :=
  match fuel with
  | O => None
  | S k =>
      if (i <? bound)%float then for_loop k (i + 1)%float bound body (body i acc)
      else Some acc
  end.

Definition loop_fuel : nat := 128.

Definition run_loop {A} (i bound : float) (body : float -> A -> A) (acc : A)
    : M A :=
  match for_loop loop_fuel i bound body acc with
  | Some r => ret r
  | None => fun w => (OutOfFuel, w)
  end.

(** [Array.prototype.push] of one element. *)
Definition push {A} (l : list A) (a : A) : list A := l ++ [a].

(* ===================================================================== *)
(** * The functions of the module *)
(* ===================================================================== *)

Section Program.

Context `{Math : MathImpl} `{SP : Solarplanets}.

Local Open Scope float_scope.

(** A [THREE.Mesh] or [THREE.Line] is created unnamed, at the origin, with
    unit scale. *)
Definition origin : Vector3 := mkVector3 0 0 0.
Definition unit_scale : Vector3 := mkVector3 1 1 1.

Definition scaled (r : Vector3) : Vector3 :=
  mkVector3 (spatialScale * vx r) (spatialScale * vy r) (spatialScale * vz r).

Definition buildPlanet (radius : float) (initialPosition : Vector3)
    (angularVelocity : float) (color : Z) (name : string) : Object3D :=
  let geometry := SphereGeometry (1e2 * radius) 32 32 in
  mkObject3D name (scaled initialPosition) (mkVector3 2 2 2) geometry
             (Some color).

Definition getJdFromDatetime (dt : Date) : float :=
  let y := getUTCFullYear dt in
  let m := getUTCMonth dt + 1 in
  let d := getUTCDate dt in
  let H := getUTCHours dt in
  let M := getUTCMinutes dt in
  let S := getUTCSeconds dt + getUTCMilliseconds dt * 1e-3 in
  let J0 := getJ0FromDatevec y m d in
  let UT := getUtFromTimevec H M S in
  let JD := getJdFromDateTime J0 UT in
  JD.

Definition orbit_n : float := 1e2.
Definition au2km : float := 1.49597871e8.

(** The body of the loop of the fallback branch of [buildOrbitTrace]. *)
Definition circle_point (radius i : float) : Vector3 :=
  let ang_rad := 2 * Math_PI * i / orbit_n in
  mkVector3 (spatialScale * radius * Math_cos ang_rad)
            (spatialScale * radius * Math_sin ang_rad)
            (spatialScale * 0.0).

(** The period computed at the head of the catalog branch. *)
Definition orbit_period (ce : Elements) (now : Date) : float :=
  let JD := getJdFromDatetime now in
  let T0 := getJulianCenturies JD in
  let a_km := getCurrentElements (a_au ce * au2km) (da_au ce * au2km) T0 in
  let T_s := 2 * Math_PI * Math_sqrt (Math_pow a_km 3 / MU_SUN_KM3PS2) in
  T_s.

(** The body of the loop of the catalog branch. *)
Definition sample_point (ce : Elements) (now : Date) (T_s i : float)
    : Vector3 :=
  let dt_s := T_s * i / orbit_n in
  let t_dt := new_Date (valueOf now + dt_s * 1e3) in
  let '(rHcec_km, _) := getRvFromElementsDatetime ce t_dt in
  scaled rHcec_km.

Definition Line (points : list Vector3) (color : Z) : Object3D :=
  mkObject3D EmptyString origin unit_scale (BufferGeometry points)
             (Some color).

Definition buildOrbitTrace (radius : float) (name : string) : M Object3D :=
  let* ce := gets (fun w => catalog w !! toLowerCase name) in
  let* points :=
    if negb (truthy ce) then
      run_loop 0 (orbit_n + 1)
        (fun i points => push points (circle_point radius i)) []
    else
      let* now := gets wall in
      let* ce := deref "a_au" ce in
      let T_s := orbit_period ce now in
      run_loop 0 (orbit_n + 1)
        (fun i points => push points (sample_point ce now T_s i)) []
  in
  ret (Line points 0x555555).

Local Close Scope float_scope.

(** [dialog.innerHTML = h] and [dialog.parentElement.style.display = v] on
    the [.DialogContent] element. *)
Definition set_dialogContent (h : string) (d : Dom) : Dom :=
  mkDom (articles d)
        ((fun e => mkDialog h (parent_display e)) <$> dialog d)
        (dialogBackground d) (body_appended d).
Definition set_dialogDisplay (v : string) (d : Dom) : Dom :=
  mkDom (articles d)
        ((fun e => mkDialog (innerHTML e) v) <$> dialog d)
        (dialogBackground d) (body_appended d).

(** The selector handed to [querySelector] is a dot followed by the
    lower-cased name.  The module calls [openDialog] from [processCollision]
    only, with the name of one of the eight planets; for such a name (letters
    only) the selector is a class selector and the query is the lookup in
    [articles].  Names that are not CSS identifiers, for which the selector
    means something else or does not parse, are outside this model. *)
Definition openDialog (name : string) : M unit :=
  let* article := gets (fun w => articles (dom w) !! toLowerCase name) in
  if negb (truthy article) then ret tt
  else
    let* dialog := gets (fun w => dialog (dom w)) in
    deref "innerHTML" dialog ;;
    let* html := deref "innerHTML" article in
    modify (with_dom (set_dialogContent html)) ;;
    modify (with_dom (set_dialogDisplay "block")).

(** An entry of the list the raycaster returns. *)
Record Collision : Set := mkCollision { object : Object3D }.

(** [Array.prototype.includes] on strings. *)
Definition includes (names : list string) (n : string) : bool :=
  existsb (String.eqb n) names.

Definition processCollision (collision : Collision) : M unit :=
  let name' := obj_name (object collision) in
  let names := map name planets in
  if negb (String.eqb name' EmptyString) && includes names name' then
    let* down := gets (fun w => is_mouse_down (app w)) in
    if down then openDialog name' else ret tt
  else ret tt.

(** [Object3D.getObjectByName] on the children of the scene: the index of
    the first child with that name.  The scene itself is unnamed and the
    children the module adds have no children of their own. *)
Fixpoint getObjectByName (children : list Object3D) (n : string)
    : option nat :=
  match children with
  | [] => None
  | o :: r =>
      if String.eqb (obj_name o) n then Some O
      else S <$> getObjectByName r n
  end.

(** [sgn.position.set(...)] on the child a reference points to. *)
Definition position_set (sgn : nat) (p : Vector3) : M unit :=
  let* children := let* s := gets (fun w => scene (app w)) in deref "children" s in
  modify (with_app (set_scene (Some (alter (set_position p) sgn children)))).

(** The callback of [planets.forEach] in [animate]. *)
Definition update_planet (now : Date) (planet : Planet) : M unit :=
  let* children :=
    let* s := gets (fun w => scene (app w)) in deref "getObjectByName" s in
  let sgn := getObjectByName children (name planet) in
  let* ce := gets (fun w => catalog w !! toLowerCase (name planet)) in
  if truthy sgn && truthy ce then
    let* ce := deref "a_au" ce in
    let '(rHcec_km, _) := getRvFromElementsDatetime ce now in
    let* sgn := deref "position" sgn in
    position_set sgn (scaled rHcec_km)
  else ret tt.

(** One frame.  [intersections] is what the raycaster reports for this
    frame; rendering itself leaves the modelled state alone. *)
Definition animate (intersections : list Collision) : M unit :=
  let* now := gets (fun w => clock (app w)) in
  forEach planets (update_planet now) ;;
  (let* c := gets (fun w => controls (app w)) in deref "update" c) ;;
  (let* r := gets (fun w => renderer (app w)) in deref "render" r) ;;
  (let* r := gets (fun w => raycaster (app w)) in deref "setFromCamera" r) ;;
  (let* s := gets (fun w => scene (app w)) in deref "children" s) ;;
  (if (0 <? length intersections)%nat
   then forEach intersections processCollision
   else ret tt) ;;
  let* paused := gets (fun w => isPaused (app w)) in
  if negb paused then
    let* t := gets wall in
    modify (with_app (set_clock t))
  else ret tt.

Definition onPointerMove (clientX clientY innerWidth innerHeight : float)
    : M unit :=
  modify (with_app (fun a =>
    set_mouse_pos (mkVector2 (clientX / innerWidth * 2 - 1)%float
                             (y2 (mouse_pos a))) a)) ;;
  modify (with_app (fun a =>
    set_mouse_pos (mkVector2 (x2 (mouse_pos a))
                             (clientY / innerHeight * 2 - 1)%float) a)).

Definition onMouseDown : M unit := modify (with_app (set_is_mouse_down true)).
Definition onMouseUp : M unit := modify (with_app (set_is_mouse_down false)).

(** [window.app.scene.add(object)]. *)
Definition scene_add (o : Object3D) : M unit :=
  let* children := let* s := gets (fun w => scene (app w)) in deref "add" s in
  modify (with_app (set_scene (Some (push children o)))).

(** [document.body.appendChild(element)]. *)
Definition appendChild (e : Element) (d : Dom) : Dom :=
  mkDom (articles d) (dialog d) (dialogBackground d) (body_appended d ++ [e]).

(** The load handler.  What the environment contributes while it runs is
    given as arguments: [parsed] is what [JSON.parse(CATALOG)] yields, the
    catalog object or [None] when it throws a SyntaxError; [webgl] tells
    whether [new THREE.WebGLRenderer] gets a rendering context, without which
    it throws; [trace_time p] is the wall-clock reading at the moment the
    trace of the planet [p] is built, since every call of [buildOrbitTrace]
    takes its own [new Date()].  A new camera is at the origin with the y
    axis up.  Registering the animation loop and the listeners changes
    nothing the module can read; the last registration needs the
    [.DialogBackground] element. *)
Definition onWindowLoad (parsed : option (gmap string Elements))
    (innerWidth innerHeight : float) (webgl : bool)
    (trace_time : Planet -> Date) : M unit :=
  let* CATALOG :=
    match parsed with
    | Some c => ret c
    | None => throw (SyntaxError "JSON.parse")
    end in
  modify (with_catalog CATALOG) ;;
  let width := innerWidth in
  let height := innerHeight in
  modify (with_app (set_camera (Some
    (PerspectiveCamera 60 (width / height) 8e9 8e3
       (Some (origin, mkVector3 0 1 0)))))) ;;
  modify (with_app (fun a => set_camera
    (set_pose (fun '(p, up) => Some (mkVector3 (vx p) (vy p) 1e7, up))
       <$> camera a) a)) ;;
  modify (with_app (fun a => set_camera
    (set_pose (fun '(p, _) => Some (p, mkVector3 0 0 1.0)) <$> camera a)
    a)) ;;
  modify (with_app (set_scene (Some []))) ;;
  scene_add (mkObject3D EmptyString origin unit_scale (AxesHelper 1e6)
               None) ;;
  let mesh :=
    mkObject3D "Sun" origin unit_scale (SphereGeometry 7e5 32 32)
               (Some 0xffff55) in
  scene_add mesh ;;
  forEach planets (fun p =>
    scene_add (buildPlanet (radius_km p)
                 (mkVector3 (semiMajorAxis_km p) 0 0)
                 (2 * Math_PI / 86400 / orbitalPeriod_days p)%float
                 (approximateColor_hex p) (name p)) ;;
    modify (with_wall (trace_time p)) ;;
    let* trace := buildOrbitTrace (semiMajorAxis_km p) (name p) in
    scene_add trace) ;;
  (if webgl then ret tt
   else throw (GenericError "Error creating WebGL context.")) ;;
  modify (with_app (set_renderer (Some (WebGLRenderer width height)))) ;;
  modify (with_dom (appendChild (Canvas width height))) ;;
  modify (with_app (fun a => set_controls
    (Some (OrbitControls (camera a ≫= camera_pose))) a)) ;;
  modify (with_app (fun a => set_camera
    (set_pose (fun _ => None) <$> camera a) a)) ;;
  modify (with_app (set_raycaster (Some Raycaster))) ;;
  let* background := gets (fun w => dialogBackground (dom w)) in
  if background then ret tt else throw (TypeError "addEventListener").

End Program.

(** The state the module starts in: [window.app] as the object literal
    builds it, an empty [catalog]. *)
Definition initial_app (t : Date) : App :=
  mkApp None None None None None (mkVector2 0 0) false t false.

Definition initial_world (t : Date) (d : Dom) : World :=
  mkWorld (initial_app t) ∅ d t.

(** What happens between two calls of the module: time passes. *)
Definition Frame : Set := Date * list Collision.

Section Frames.

Context `{Math : MathImpl} `{SP : Solarplanets}.

Definition run_frame (f : Frame) (w : World) : World :=
  exec (animate (snd f)) (with_wall (fst f) w).

Definition run_frames (fs : list Frame) (w : World) : World :=
  fold_left (fun w f => run_frame f w) fs w.

(** The position [animate] computes for a planet from the clock, when the
    catalog has its elements. *)
Definition propagated (w : World) (p : Planet) : option Vector3 :=
  (fun ce => scaled (fst (getRvFromElementsDatetime ce (clock (app w)))))
    <$> catalog w !! toLowerCase (name p).

End Frames.

(* ===================================================================== *)
(** * Vocabulary of the properties *)
(* ===================================================================== *)

(** The values the loop counter of [buildOrbitTrace] takes: 0, 1, ..., 100. *)
Definition sample_index (k : nat) : float := of_Z (Z.of_nat k).
Definition sample_indices : list float := map sample_index (seq 0 101).

(** Two Numbers differ by at most [eps]. *)
Definition near (eps a b : float) : Prop :=
  (abs (a - b) <=? eps)%float = true.

(** [relates R m]: every run of [m] takes a world to one related to it by
    [R], also when [m] throws. *)
Definition relates {A} (R : relation World) (m : M A) : Prop :=
  forall w, R w (exec m w).

(** [same_on f]: the part [f] of the world is left as it was. *)
Definition same_on {B} (f : World -> B) : relation World :=
  fun w w' => f w' = f w.

(** The pause flag stays, and while it is set so does the clock. *)
Definition frozen : relation World :=
  fun w w' =>
    isPaused (app w') = isPaused (app w) /\
    (isPaused (app w) = true -> clock (app w') = clock (app w)).

Definition is_planet_name (n : string) : Prop :=
  n <> EmptyString /\ n ∈ map name planets.

(** The document is only written to while the button is down and one of
    the objects hit is a planet. *)
Definition dialog_guard (hits : list Collision) : relation World :=
  fun w w' =>
    is_mouse_down (app w') = is_mouse_down (app w) /\
    (dom w' = dom w \/
     (is_mouse_down (app w) = true /\
      exists c, c ∈ hits /\ is_planet_name (obj_name (object c)))).

Section Vocabulary.

Context `{Math : MathImpl} `{SP : Solarplanets}.

(** What the callback of [planets.forEach] does to the children of the
    scene. *)
Definition update_children (cat : gmap string Elements) (now : Date)
    (children : list Object3D) (p : Planet) : list Object3D :=
  match getObjectByName children (name p), cat !! toLowerCase (name p) with
  | Some j, Some ce =>
      alter (set_position (scaled (fst (getRvFromElementsDatetime ce now))))
            j children
  | _, _ => children
  end.

Definition publish (cat : gmap string Elements) (now : Date)
    (l : list Planet) (children : list Object3D) : list Object3D :=
  fold_left (update_children cat now) l children.

(** The child at index [j], which was [o], after the update for the planets
    [l]: it is moved when it is the first child of its name, that name is a
    planet's and the catalog has the elements. *)
Definition published_object (cat : gmap string Elements) (now : Date)
    (l : list Planet) (children : list Object3D) (j : nat) (o : Object3D)
    : Object3D :=
  if bool_decide (getObjectByName children (obj_name o) = Some j)
     && includes (map name l) (obj_name o)
  then
    match cat !! toLowerCase (obj_name o) with
    | Some ce =>
        set_position (scaled (fst (getRvFromElementsDatetime ce now))) o
    | None => o
    end
  else o.

(** The last statement of [animate]: the clock follows the wall clock
    unless the pause flag is set. *)
Definition tick : M unit :=
  let* paused := gets (fun w => isPaused (app w)) in
  if negb paused then
    let* t := gets wall in
    modify (with_app (set_clock t))
  else ret tt.

(** The statements of [animate] between the update of the planets and the
    tick: rendering and picking. *)
Definition render_and_pick (intersections : list Collision) : M unit :=
  (let* c := gets (fun w => controls (app w)) in deref "update" c) ;;
  (let* r := gets (fun w => renderer (app w)) in deref "render" r) ;;
  (let* r := gets (fun w => raycaster (app w)) in deref "setFromCamera" r) ;;
  (let* s := gets (fun w => scene (app w)) in deref "children" s) ;;
  (if (0 <? length intersections)%nat
   then forEach intersections processCollision
   else ret tt).

End Vocabulary.

(* ===================================================================== *)
(** * Concrete interfaces and worlds *)
(* ===================================================================== *)

Module Fixtures.

Local Open Scope float_scope.

(** A [Math] on which the model can be evaluated: cosine and sine by their
    power series (exact at 0, as ECMAScript requires), and powers with a small
    natural exponent by repeated multiplication. *)
Fixpoint series (n : nat) (xx term k acc : float) : float :=
  match n with
  | O => acc
  | S n' =>
      let term' := - term * xx / ((k + 1) * (k + 2)) in
      series n' xx term' (k + 2) (acc + term')
  end.

Definition ref_cos (x : float) : float := series 40 (x * x) 1 0 1.
Definition ref_sin (x : float) : float := series 40 (x * x) x 1 x.

Definition ref_pow (x y : float) : float :=
  match to_Z y with
  | Some z =>
      if (0 <=? z)%Z && (z <=? 64)%Z && (of_Z z =? y) then
        Z.iter z (fun acc => acc * x) 1
      else nan
  | None => nan
  end.

Definition RefMath : MathImpl :=
  {| Math_cos := ref_cos; Math_sin := ref_sin; Math_pow := ref_pow |}.

(** Modelled from the spec: [getJ0FromDatevec] of the [solarplanets]
    package, whose source is not part of the module.  Section 4.1 names the
    standard algorithm: the Julian day number at 0h UT of the UTC calendar
    date. *)
Definition std_getJ0FromDatevec (y m d : float) : float :=
  367 * y - Math_floor (7 * (y + Math_floor ((m + 9) / 12)) / 4)
  + Math_floor (275 * m / 9) + d + 1721013.5.

(** Modelled from the spec: [getUtFromTimevec] of the package; the hours of
    the day given by hours, minutes and seconds (section 4.1). *)
Definition std_getUtFromTimevec (H M S : float) : float :=
  H + M / 60 + S / 3600.

(** Modelled from the spec: [getJdFromDateTime] of the package; the day
    number plus the fraction of the day (section 4.1). *)
Definition std_getJdFromDateTime (J0 UT : float) : float := J0 + UT / 24.

(** Modelled from the spec: [getJulianCenturies] of the package,
    [T = (jd - 2451545.0) / 36525.0] (section 4.1). *)
Definition std_getJulianCenturies (jd : float) : float :=
  (jd - 2451545.0) / 36525.0.

(** Modelled from the spec: [getCurrentElements] of the package,
    [value(T) = value0 + rate * T] (section 4.2, step 1). *)
Definition std_getCurrentElements (x0 dx T : float) : float := x0 + dx * T.

(** Modelled from the spec: the package with the five functions above,
    around any propagator. *)
Definition StandardSolarplanets
    (propagator : Elements -> Date -> Vector3 * Vector3) : Solarplanets :=
  {| getJ0FromDatevec := std_getJ0FromDatevec;
     getUtFromTimevec := std_getUtFromTimevec;
     getJdFromDateTime := std_getJdFromDateTime;
     getJulianCenturies := std_getJulianCenturies;
     getCurrentElements := std_getCurrentElements;
     getRvFromElementsDatetime := propagator |}.

(** A propagator to evaluate the model with: the body leaves the point
    [(a, 0, 0)] (in km) at the epoch of the time values and drifts along [y]
    by one kilometre per millisecond.  Any propagator whose output varies
    with time would do. *)
Definition drift (ce : Elements) (t : Date) : Vector3 * Vector3 :=
  (mkVector3 (a_au ce * au2km) (valueOf t) 0, mkVector3 0 1e3 0).

Definition DriftSolarplanets : Solarplanets :=
  StandardSolarplanets drift.

Definition earth : Elements := mkElements 1.00000261 0.00000562 [].
Definition mars : Elements := mkElements 1.52371034 0.00001847 [].

(** A catalog without Mercury, Venus and the outer planets. *)
Definition CATALOG : gmap string Elements :=
  <["earth" := earth]> (<["mars" := mars]> ∅).

Definition page : Dom :=
  mkDom (<["earth" := "<h2>Earth</h2>"]> ∅)
        (Some (mkDialog EmptyString "none")) true [].

(** 2000-01-01T12:00:00Z, and the page loaded then. *)
Definition j2000 : Date := new_Date 946728000000.

Definition loaded : World :=
  exec (@onWindowLoad RefMath DriftSolarplanets (Some CATALOG) 1920 1080 true
          (fun _ => j2000))
       (initial_world j2000 page).

(** Sixteen seconds later the first frame has run; then the clock is
    paused and ten more frames follow, 16 ms apart. *)
Definition later : Date := new_Date 946728016000.

Definition running : World :=
  @run_frame DriftSolarplanets (later, []) loaded.

Definition paused : World := with_app (set_isPaused true) running.

Definition ten_frames : list Frame :=
  map (fun k => (new_Date (946728016000 + 16 * sample_index k), []))
      (seq 1 10).

(** The first paused frame has run. *)
Definition settled : World :=
  @run_frame DriftSolarplanets (new_Date 946728016016, []) paused.

(** The pointer is pressed over the Earth, or over the Sun. *)
Definition pressed : World := exec onMouseDown loaded.

Definition earth_hit : Collision :=
  mkCollision (buildPlanet 6.3781e3 (mkVector3 1.49898023e8 0 0) 0 0x33bb33
                 "Earth").

(** The scene of a world in which the page has loaded. *)
Definition children_of (w : World) : list Object3D :=
  match scene (app w) with Some c => c | None => [] end.

Definition venus_planet : Planet :=
  mkPlanet "Venus" 6.051e3 108.21e6 224.701 0xaaaa77.
Definition earth_planet : Planet :=
  mkPlanet "Earth" 6.3781e3 1.49898023e8 365.256 0x33bb33.

(** The clock is paused at [later] and the wall clock has moved on. *)
Definition resampling : World := with_wall (new_Date 946728032000) paused.

Definition sun_hit : Collision :=
  mkCollision (mkObject3D "Sun" origin unit_scale (SphereGeometry 7e5 32 32)
                 (Some 0xffff55%Z)).

Definition venus_hit : Collision :=
  mkCollision (buildPlanet 6.051e3 (mkVector3 108.21e6 0 0) 0 0xaaaa77
                 "Venus").

(** The loaded page without its [.DialogContent] element, the button
    down. *)
Definition without_dialog : World :=
  with_dom (fun d => mkDom (articles d) None (dialogBackground d)
                           (body_appended d)) pressed.

End Fixtures.

(* ===================================================================== *)
(** * Vocabulary of the further properties *)
(* ===================================================================== *)

(** The index of the first occurrence of a name in a list of names. *)
Fixpoint index_of (names : list string) (n : string) : option nat :=
  match names with
  | [] => None
  | m :: r => if String.eqb m n then Some O else S <$> index_of r n
  end.

(** The two elements [openDialog] writes to exist. *)
Definition dialog_ready (w : World) : Prop :=
  is_Some (dialogContent (dom w)) /\ is_Some (dialogDisplay (dom w)).

(** The object hit carries the name of a planet for which the page has an
    article: pressed, it reaches [openDialog] and gets past its first
    line. *)
Definition opens_dialog (d : Dom) (c : Collision) : bool :=
  negb (String.eqb (obj_name (object c)) EmptyString)
  && includes (map name planets) (obj_name (object c))
  && truthy (articles d !! toLowerCase (obj_name (object c))).

(** What [openDialog] leaves when it runs to its end. *)
Definition opened (html : string) (d : Dom) : Dom :=
  mkDom (articles d) (Some (mkDialog html "block")) (dialogBackground d)
        (body_appended d).

(** The objects a frame calls methods on are there. *)
Definition initialised (w : World) : Prop :=
  is_Some (scene (app w)) /\ is_Some (controls (app w)) /\
  is_Some (renderer (app w)) /\ is_Some (raycaster (app w)).

(** The day of the year on which month [m] (counted from 0) starts, in a
    year with [l] leap days. *)
Definition MonthStart (m l : Z) : Z :=
  match m with
  | 0 => 0 | 1 => 31 | 2 => 59 + l | 3 => 90 + l | 4 => 120 + l
  | 5 => 151 + l | 6 => 181 + l | 7 => 212 + l | 8 => 243 + l
  | 9 => 273 + l | 10 => 304 + l | _ => 334 + l
  end.

(** The length of month [m] (counted from 0) in a year with [l] leap
    days. *)
Definition MonthLength (m l : Z) : Z :=
  match m with
  | 1 => 28 + l
  | 3 | 5 | 8 | 10 => 30
  | _ => 31
  end.

(** The Gregorian calendar: leap years, the lengths of the twelve months,
    and the dates that exist, months and days counted from 1. *)
Definition is_leap_year (y : Z) : bool :=
  (y mod 4 =? 0) && (negb (y mod 100 =? 0) || (y mod 400 =? 0)).

Definition month_lengths (y : Z) : list Z :=
  [31; if is_leap_year y then 29 else 28; 31; 30; 31; 30; 31; 31; 30; 31; 30;
   31].

Definition days_in_month (y m : Z) : Z :=
  nth (Z.to_nat (m - 1)) (month_lengths y) 0.

Definition days_before_month (y m : Z) : Z :=
  fold_right Z.add 0 (firstn (Z.to_nat (m - 1)) (month_lengths y)).

Definition calendar_fields (y m d H M s ms : Z) : Prop :=
  1 <= m <= 12 /\ 1 <= d <= days_in_month y m /\
  0 <= H <= 23 /\ 0 <= M <= 59 /\ 0 <= s <= 59 /\ 0 <= ms <= 999.

(** The time value of a UTC calendar date and time of day: the days before
    the year, before the month and before the day, then the time of day. *)
Definition time_value (y m d H M s ms : Z) : Z :=
  msPerDay * (DayFromYear y + days_before_month y m + (d - 1))
  + H * msPerHour + M * msPerMinute + s * msPerSecond + ms.

(** The time values a Date can hold. *)
Definition valid_time (t : Z) : Prop :=
  -8640000000000000 <= t <= 8640000000000000.

Section FurtherVocabulary.

Context `{Math : MathImpl} `{SP : Solarplanets}.

(** The line [buildOrbitTrace] returns, as a function of what it reads: the
    catalog and the wall clock. *)
Definition trace_of (cat : gmap string Elements) (now : Date)
    (radius : float) (name : string) : Object3D :=
  match cat !! toLowerCase name with
  | None => Line (map (circle_point radius) sample_indices) 0x555555
  | Some ce =>
      Line (map (sample_point ce now (orbit_period ce now)) sample_indices)
           0x555555
  end.

(** The sphere the load handler builds for a planet. *)
Definition planet_mesh (p : Planet) : Object3D :=
  buildPlanet (radius_km p) (mkVector3 (semiMajorAxis_km p) 0 0)
    (2 * Math_PI / 86400 / orbitalPeriod_days p)%float
    (approximateColor_hex p) (name p).

(** The two objects the load handler adds for a planet: the sphere, and
    the trace built at the wall-clock reading [trace_time p]. *)
Definition planet_objects (cat : gmap string Elements)
    (trace_time : Planet -> Date) (p : Planet) : list Object3D :=
  [planet_mesh p; trace_of cat (trace_time p) (semiMajorAxis_km p) (name p)].

(** The children the load handler gives the scene. *)
Definition loaded_children (cat : gmap string Elements)
    (trace_time : Planet -> Date) : list Object3D :=
  mkObject3D EmptyString origin unit_scale (AxesHelper 1e6) None
  :: mkObject3D "Sun" origin unit_scale (SphereGeometry 7e5 32 32)
       (Some 0xffff55)
  :: flat_map (planet_objects cat trace_time) planets.

(** The wall clock after the traces of the planets [l] have been built. *)
Definition wall_after (trace_time : Planet -> Date) (l : list Planet)
    (t : Date) : Date :=
  fold_left (fun _ p => trace_time p) l t.

(** The world once the scene of the load handler is complete, before the
    renderer is created. *)
Definition scene_loaded (cat : gmap string Elements)
    (innerWidth innerHeight : float) (trace_time : Planet -> Date)
    (w : World) : World :=
  mkWorld
    (mkApp (renderer (app w))
           (Some (loaded_children cat trace_time))
           (Some (PerspectiveCamera 60 (innerWidth / innerHeight) 8e9 8e3
                    (Some (mkVector3 0 0 1e7, mkVector3 0 0 1))))
           (controls (app w)) (raycaster (app w))
           (mouse_pos (app w)) (is_mouse_down (app w)) (clock (app w))
           (isPaused (app w)))
    cat (dom w) (wall_after trace_time planets (wall w)).

(** The world when the load handler has set up the renderer, the canvas,
    the controls and the raycaster. *)
Definition page_loaded (cat : gmap string Elements)
    (innerWidth innerHeight : float) (trace_time : Planet -> Date)
    (w : World) : World :=
  let w1 := scene_loaded cat innerWidth innerHeight trace_time w in
  mkWorld
    (mkApp (Some (WebGLRenderer innerWidth innerHeight))
           (scene (app w1))
           (Some (PerspectiveCamera 60 (innerWidth / innerHeight) 8e9 8e3
                    None))
           (Some (OrbitControls (Some (mkVector3 0 0 1e7, mkVector3 0 0 1))))
           (Some Raycaster)
           (mouse_pos (app w1)) (is_mouse_down (app w1)) (clock (app w1))
           (isPaused (app w1)))
    cat (appendChild (Canvas innerWidth innerHeight) (dom w)) (wall w1).

End FurtherVocabulary.

(* ===================================================================== *)
(** * Reasoning about computations *)
(* ===================================================================== *)

Lemma exec_bind {A B} (m : M A) (k : A -> M B) (w : World) :
  exec (bind m k) w
  = match m w with
    | (Ok a, w') => exec (k a) w'
    | (_, w') => w'
    end.
Proof. unfold exec, bind. destruct (m w) as [[a|e|] w']; reflexivity. Qed.

(** ** Two-state invariants *)
Section Relates.

Context (R : relation World) `{!PreOrder R}.

Lemma relates_ret {A} (a : A) : relates R (ret a).
Proof. intros w. reflexivity. Qed.

Lemma relates_throw {A} (e : JsError) : relates R (@throw A e).
Proof. intros w. reflexivity. Qed.

Lemma relates_gets {A} (f : World -> A) : relates R (gets f).
Proof. intros w. reflexivity. Qed.

Lemma relates_deref {A} (what : string) (o : option A) :
  relates R (deref what o).
Proof. destruct o; [apply relates_ret | apply relates_throw]. Qed.

Lemma relates_modify (g : World -> World) :
  (forall w, R w (g w)) -> relates R (modify g).
Proof. intros H w. apply H. Qed.

Lemma relates_bind {A B} (m : M A) (k : A -> M B) :
  relates R m -> (forall a, relates R (k a)) -> relates R (bind m k).
Proof.
  intros Hm Hk w. rewrite exec_bind. specialize (Hm w). unfold exec in Hm.
  destruct (m w) as [[a|e|] w']; simpl in Hm; try exact Hm.
  etransitivity; [exact Hm | apply Hk].
Qed.

(** After reading the state, the continuation only has to behave on the
    value that was read. *)
Lemma relates_gets_bind {A B} (f : World -> A) (k : A -> M B) :
  (forall w, R w (exec (k (f w)) w)) -> relates R (bind (gets f) k).
Proof. intros H w. rewrite exec_bind. apply H. Qed.

Lemma relates_forEach {A} (l : list A) (f : A -> M unit) :
  (forall a, a ∈ l -> relates R (f a)) -> relates R (forEach l f).
Proof.
  induction l as [|a l IH]; intros H; simpl.
  - apply relates_ret.
  - apply relates_bind.
    + apply H. left.
    + intros _. apply IH. intros b Hb. apply H. right. exact Hb.
Qed.

End Relates.

#[export] Instance same_on_preorder {B} (f : World -> B) :
  PreOrder (same_on f).
Proof.
  split.
  - intros w. reflexivity.
  - intros w1 w2 w3 H12 H23. unfold same_on in *. congruence.
Qed.


(** Splits a computation along its binds and branches, down to the state
    updates. *)
Ltac relates_steps :=
  repeat match goal with
    | |- relates _ (ret _) => apply relates_ret; apply _
    | |- relates _ (throw _) => apply relates_throw; apply _
    | |- relates _ (gets _) => apply relates_gets; apply _
    | |- relates _ (deref _ _) => apply relates_deref; apply _
    | |- relates _ (bind _ _) => apply relates_bind; [apply _ | | intros ?]
    | |- relates _ (forEach _ _) =>
        apply relates_forEach; [apply _ | intros ? ?]
    | |- relates _ (modify _) => apply relates_modify; intros ?
    | |- relates _ (if ?b then _ else _) => destruct b
    | |- relates _ (match ?o with _ => _ end) => destruct o
    end.

(** ** Record updates *)

Lemma with_scene_id (w : World) (s : option (list Object3D)) :
  scene (app w) = s -> with_app (set_scene s) w = w.
Proof. destruct w as [[] ? ? ?]. simpl. intros <-. reflexivity. Qed.


(* ===================================================================== *)
(** * Numbers: adding a zero *)
(* ===================================================================== *)

Lemma zero_cases (x : float) (s : bool) :
  Prim2SF x = S754_zero s -> x = (if s then -0 else 0)%float.
Proof.
  intros H. apply Prim2SF_inj. rewrite H. destruct s; reflexivity.
Qed.

(** A finite Number times zero is a zero; any other Number times zero is
    NaN. *)
Lemma mul_zero_finite (x : float) :
  is_finite x = true -> (x * 0 = 0 \/ x * 0 = -0)%float.
Proof.
  intros H.
  assert (E : Prim2SF (x * 0)%float = SF64mul (Prim2SF x) (Prim2SF 0%float))
    by apply mul_spec.
  unfold is_finite, is_nan, is_infinity in H.
  rewrite !FloatAxioms.eqb_spec, abs_spec in H.
  destruct (Prim2SF x) as [s|s| |s m e] eqn:Hx.
  - apply zero_cases in E. destruct s; cbn in E; auto.
  - destruct s; discriminate H.
  - discriminate H.
  - apply zero_cases in E. destruct s; cbn in E; auto.
Qed.

Lemma mul_zero_not_finite (x : float) :
  is_finite x = false -> (x * 0)%float = nan.
Proof.
  intros H.
  assert (E : Prim2SF (x * 0)%float = SF64mul (Prim2SF x) (Prim2SF 0%float))
    by apply mul_spec.
  unfold is_finite, is_nan, is_infinity in H.
  rewrite !FloatAxioms.eqb_spec, abs_spec in H.
  destruct (Prim2SF x) as [s|s| |s m e] eqn:Hx.
  - destruct s; discriminate H.
  - apply Prim2SF_inj. rewrite E. reflexivity.
  - apply Prim2SF_inj. rewrite E. reflexivity.
  - exfalso. revert H. cbn. destruct s; cbn; rewrite Pos.compare_refl;
      cbn; rewrite ?Z.compare_refl; discriminate.
Qed.

Lemma add_nan (v : float) : (v + nan)%float = nan.
Proof.
  apply Prim2SF_inj. rewrite add_spec.
  destruct (Prim2SF v); reflexivity.
Qed.

(** Adding a zero changes a Number only if it is itself a zero. *)
Lemma add_zero (v z : float) :
  (z = 0 \/ z = -0)%float ->
  (v + z)%float = v \/
  ((v = 0 \/ v = -0) /\ (v + z = 0 \/ v + z = -0))%float.
Proof.
  intros Hz.
  assert (E : Prim2SF (v + z)%float = SF64add (Prim2SF v) (Prim2SF z))
    by apply add_spec.
  destruct (Prim2SF v) as [s|s| |s m e] eqn:Hv.
  - right. apply zero_cases in Hv. split; [destruct s; auto|].
    destruct Hz as [-> | ->]; subst v; destruct s; vm_compute; auto.
  - left. apply Prim2SF_inj. rewrite E, Hv.
    destruct Hz as [-> | ->]; reflexivity.
  - left. apply Prim2SF_inj. rewrite E, Hv.
    destruct Hz as [-> | ->]; reflexivity.
  - left. apply Prim2SF_inj. rewrite E, Hv.
    destruct Hz as [-> | ->]; reflexivity.
Qed.

(** [new Date(v + z)] for a zero [z] is [new Date(v)]. *)
Lemma new_Date_add_zero (v z : float) :
  (z = 0 \/ z = -0)%float -> new_Date (v + z) = new_Date v.
Proof.
  intros Hz. unfold new_Date. f_equal.
  destruct (add_zero v z Hz) as [->|[Hv Hs]]; [reflexivity|].
  destruct Hs as [-> | ->], Hv as [-> | ->]; reflexivity.
Qed.

(** The offset of the first sample of a trace, [T * 0 / 100 * 1e3]. *)
Lemma first_offset_finite (T : float) :
  is_finite T = true ->
  (T * 0 / 100 * 1e3 = 0 \/ T * 0 / 100 * 1e3 = -0)%float.
Proof.
  intros H. destruct (mul_zero_finite T H) as [-> | ->]; vm_compute; auto.
Qed.

Lemma first_instant_finite (now : Date) (T : float) :
  is_finite T = true ->
  new_Date (valueOf now + T * 0 / 100 * 1e3) = new_Date (valueOf now).
Proof. intros H. apply new_Date_add_zero, first_offset_finite, H. Qed.

Lemma first_instant_not_finite (now : Date) (T : float) :
  is_finite T = false ->
  new_Date (valueOf now + T * 0 / 100 * 1e3) = mkDate nan.
Proof.
  intros H. rewrite (mul_zero_not_finite T H).
  change (nan / 100 * 1e3)%float with nan. rewrite add_nan. reflexivity.
Qed.

(* ===================================================================== *)
(** * The sampling loops *)
(* ===================================================================== *)

Section Loops.

Context {A : Type} (pt : float -> A).

(** The loop leaves after 101 rounds, whatever budget above that it is
    given, and has then pushed one point per counter value. *)
Lemma for_loop_push (fuel : nat) :
  (101 < fuel)%nat ->
  for_loop fuel 0%float (orbit_n + 1)%float
    (fun i points => push points (pt i)) [] = Some (map pt sample_indices).
Proof.
  intros Hfuel.
  replace fuel with (102 + (fuel - 102))%nat by lia.
  generalize (fuel - 102)%nat as k; intros k.
  vm_compute. reflexivity.
Qed.

Lemma run_loop_push (w : World) :
  run_loop 0%float (orbit_n + 1)%float
    (fun i points => push points (pt i)) [] w
  = (Ok (map pt sample_indices), w).
Proof.
  unfold run_loop. rewrite for_loop_push by (unfold loop_fuel; lia).
  reflexivity.
Qed.

Lemma sample_indices_length : length sample_indices = 101%nat.
Proof. reflexivity. Qed.

Lemma sample_points_lookup (k : nat) :
  (k < 101)%nat -> map pt sample_indices !! k = Some (pt (sample_index k)).
Proof.
  intros Hk. unfold sample_indices.
  rewrite !list_lookup_fmap, lookup_seq_lt by lia. reflexivity.
Qed.

End Loops.

Section Traces.

Context `{Math : MathImpl} `{SP : Solarplanets}.

(** The two branches of [buildOrbitTrace], each as one equation. *)
Lemma buildOrbitTrace_fallback (radius : float) (name : string) (w : World) :
  catalog w !! toLowerCase name = None ->
  buildOrbitTrace radius name w
  = (Ok (Line (map (circle_point radius) sample_indices) 0x555555), w).
Proof.
  intros Hce. unfold buildOrbitTrace, bind, gets. rewrite Hce.
  cbn [truthy negb deref ret]. rewrite run_loop_push. reflexivity.
Qed.

Lemma buildOrbitTrace_catalog (radius : float) (name : string) (w : World)
    (ce : Elements) :
  catalog w !! toLowerCase name = Some ce ->
  buildOrbitTrace radius name w
  = (Ok (Line (map (sample_point ce (wall w) (orbit_period ce (wall w)))
                   sample_indices) 0x555555), w).
Proof.
  intros Hce. unfold buildOrbitTrace, bind, gets. rewrite Hce.
  cbn [truthy negb deref ret]. rewrite run_loop_push. reflexivity.
Qed.

End Traces.

(* ===================================================================== *)
(** * The per-frame update of the scene *)
(* ===================================================================== *)

(** ** References by name *)

Lemma getObjectByName_Some (children : list Object3D) (n : string) (j : nat) :
  getObjectByName children n = Some j ->
  exists o, children !! j = Some o /\ obj_name o = n.
Proof.
  revert j. induction children as [|o r IH]; intros j; simpl; [discriminate|].
  destruct (String.eqb (obj_name o) n) eqn:E.
  - intros [= <-]. exists o. split; [reflexivity|]. now apply String.eqb_eq.
  - destruct (getObjectByName r n) as [i|]; simpl; [|discriminate].
    intros [= <-]. apply (IH i). reflexivity.
Qed.

(** The lookup only reads the names. *)
Lemma getObjectByName_names (c c' : list Object3D) (n : string) :
  map obj_name c = map obj_name c' ->
  getObjectByName c n = getObjectByName c' n.
Proof.
  revert c'. induction c as [|o r IH]; intros [|o' r']; simpl;
    try discriminate; [reflexivity|].
  intros [= Ho Hr]. rewrite Ho, (IH r' Hr). reflexivity.
Qed.

Lemma alter_set_position_names (p : Vector3) (j : nat)
    (children : list Object3D) :
  map obj_name (alter (set_position p) j children) = map obj_name children.
Proof.
  revert j. induction children as [|o r IH]; intros [|j]; simpl;
    try reflexivity.
  f_equal. apply IH.
Qed.

Section Scene.

Context `{Math : MathImpl} `{SP : Solarplanets}.

Lemma update_planet_run (now : Date) (p : Planet) (w : World)
    (children : list Object3D) :
  scene (app w) = Some children ->
  update_planet now p w
  = (Ok tt, with_app (set_scene
       (Some (update_children (catalog w) now children p))) w).
Proof.
  intros Hs. unfold update_planet, update_children, bind, gets.
  rewrite Hs. cbn [deref ret].
  destruct (getObjectByName children (name p)) as [j|],
           (catalog w !! toLowerCase (name p)) as [ce|];
    cbn [truthy andb deref ret];
    try (rewrite with_scene_id by exact Hs; reflexivity).
  destruct (getRvFromElementsDatetime ce now) as [r v].
  unfold position_set, bind, gets, modify. rewrite Hs. reflexivity.
Qed.

Lemma update_planet_null (now : Date) (p : Planet) (w : World) :
  scene (app w) = None ->
  update_planet now p w = (Throw (TypeError "getObjectByName"), w).
Proof.
  intros Hs. unfold update_planet, bind, gets. rewrite Hs. reflexivity.
Qed.

Lemma forEach_update_planet (now : Date) (l : list Planet) (w : World)
    (children : list Object3D) :
  scene (app w) = Some children ->
  forEach l (update_planet now) w
  = (Ok tt, with_app (set_scene
       (Some (publish (catalog w) now l children))) w).
Proof.
  revert w children. induction l as [|p l IH]; intros w children Hs.
  - simpl. unfold ret. rewrite with_scene_id by exact Hs. reflexivity.
  - cbn [forEach]. unfold bind at 1.
    rewrite (update_planet_run now p w children Hs).
    rewrite (IH _ (update_children (catalog w) now children p))
      by reflexivity.
    reflexivity.
Qed.

(** ** The scene after the update, child by child *)

Lemma update_children_names cat now children p :
  map obj_name (update_children cat now children p) = map obj_name children.
Proof.
  unfold update_children.
  destruct (getObjectByName children (name p)), (cat !! toLowerCase (name p));
    try reflexivity.
  apply alter_set_position_names.
Qed.

Lemma publish_names cat now l children :
  map obj_name (publish cat now l children) = map obj_name children.
Proof.
  unfold publish. revert children.
  induction l as [|p l IH]; intros children; simpl.
  - reflexivity.
  - rewrite IH. apply update_children_names.
Qed.

Lemma update_children_lookup cat now children p j :
  update_children cat now children p !! j
  = published_object cat now [p] children j <$> children !! j.
Proof.
  unfold update_children, published_object, includes. cbn [map existsb].
  destruct (children !! j) as [o|] eqn:Ho; cbn [fmap option_fmap option_map].
  - rewrite orb_false_r.
    destruct (getObjectByName children (name p)) as [i|] eqn:Hi.
    + destruct (getObjectByName_Some _ _ _ Hi) as (oi & Hoi & Hname).
      destruct (decide (i = j)) as [->|Hne].
      * assert (oi = o) as -> by congruence.
        rewrite Hname, Hi, bool_decide_eq_true_2 by reflexivity.
        rewrite String.eqb_refl. cbn [andb].
        destruct (cat !! toLowerCase (name p)); [|exact Ho].
        rewrite list_lookup_alter_eq, Ho. reflexivity.
      * assert (bool_decide (getObjectByName children (obj_name o) = Some j)
                && String.eqb (obj_name o) (name p) = false) as ->.
        { destruct (String.eqb (obj_name o) (name p)) eqn:E;
            [|apply andb_false_r].
          apply String.eqb_eq in E. rewrite E, Hi.
          rewrite bool_decide_eq_false_2; [reflexivity|congruence]. }
        destruct (cat !! toLowerCase (name p)); [|exact Ho].
        rewrite list_lookup_alter_ne by exact Hne. exact Ho.
    + assert (bool_decide (getObjectByName children (obj_name o) = Some j)
              && String.eqb (obj_name o) (name p) = false) as ->.
      { destruct (String.eqb (obj_name o) (name p)) eqn:E;
          [|apply andb_false_r].
        apply String.eqb_eq in E. rewrite E, Hi. reflexivity. }
      exact Ho.
  - destruct (getObjectByName children (name p)) as [i|],
             (cat !! toLowerCase (name p)); try exact Ho.
    destruct (decide (i = j)) as [->|Hne].
    + rewrite list_lookup_alter_eq, Ho. reflexivity.
    + rewrite list_lookup_alter_ne by exact Hne. exact Ho.
Qed.

Lemma published_object_name cat now l children j o :
  obj_name (published_object cat now l children j o) = obj_name o.
Proof.
  unfold published_object.
  destruct (_ && _); [|reflexivity].
  destruct (cat !! toLowerCase (obj_name o)); reflexivity.
Qed.

(** Publishing for one more planet, and publishing twice. *)
Lemma published_object_cons cat now p l children children' j o :
  map obj_name children' = map obj_name children ->
  published_object cat now l children' j
    (published_object cat now [p] children j o)
  = published_object cat now (p :: l) children j o.
Proof.
  intros Hn. unfold published_object at 1.
  rewrite published_object_name, (getObjectByName_names _ _ _ Hn).
  unfold published_object, includes. cbn [map existsb].
  rewrite orb_false_r.
  destruct (bool_decide (getObjectByName children (obj_name o) = Some j)),
           (String.eqb (obj_name o) (name p)),
           (existsb (String.eqb (obj_name o)) (map name l)),
           (cat !! toLowerCase (obj_name o)); reflexivity.
Qed.

Lemma published_object_twice cat now l children children' j o :
  map obj_name children' = map obj_name children ->
  published_object cat now l children' j
    (published_object cat now l children j o)
  = published_object cat now l children j o.
Proof.
  intros Hn. unfold published_object at 1.
  rewrite published_object_name, (getObjectByName_names _ _ _ Hn).
  unfold published_object.
  destruct (_ && _), (cat !! toLowerCase (obj_name o)); reflexivity.
Qed.

Lemma publish_lookup cat now l children j :
  publish cat now l children !! j
  = published_object cat now l children j <$> children !! j.
Proof.
  revert children. induction l as [|p l IH]; intros children.
  - unfold publish. cbn [fold_left].
    destruct (children !! j) as [o|]; cbn [fmap option_fmap option_map];
      [|reflexivity].
    unfold published_object, includes. cbn [map existsb].
    rewrite andb_false_r. reflexivity.
  - change (publish cat now (p :: l) children)
      with (publish cat now l (update_children cat now children p)).
    rewrite IH, update_children_lookup.
    destruct (children !! j) as [o|]; cbn [fmap option_fmap option_map];
      [|reflexivity].
    f_equal. apply published_object_cons, update_children_names.
Qed.

Lemma publish_idempotent cat now l children :
  publish cat now l (publish cat now l children)
  = publish cat now l children.
Proof.
  apply list_eq. intros j. rewrite !publish_lookup.
  destruct (children !! j) as [o|]; cbn [fmap option_fmap option_map];
    [|reflexivity].
  f_equal. apply published_object_twice, publish_names.
Qed.

(** ** The phases of a frame *)

Lemma relates_ext {A} (R : relation World) (m m' : M A) :
  (forall w, m w = m' w) -> relates R m' -> relates R m.
Proof. intros E H w. unfold exec. rewrite E. apply H. Qed.

(** [animate] is the update of the planets, then rendering and picking,
    then the tick. *)
Lemma animate_eq (intersections : list Collision) (w : World) :
  animate intersections w
  = (let* now := gets (fun w => clock (app w)) in
     forEach planets (update_planet now) ;;
     render_and_pick intersections ;;
     tick) w.
Proof.
  unfold animate, render_and_pick, tick, bind, gets.
  destruct (forEach planets _ w) as [[[]|e|] w1]; try reflexivity.
  destruct (controls (app w1)); cbn [deref ret throw]; [|reflexivity].
  destruct (renderer (app w1)); cbn [deref ret throw]; [|reflexivity].
  destruct (raycaster (app w1)); cbn [deref ret throw]; [|reflexivity].
  destruct (scene (app w1)); cbn [deref ret throw]; [|reflexivity].
  destruct ((if (0 <? length intersections)%nat
             then forEach intersections processCollision
             else fun w => (Ok tt, w)) w1) as [[[]|e|] w2]; reflexivity.
Qed.

Lemma exec_animate (intersections : list Collision) (w : World) :
  exec (animate intersections) w
  = exec (let* now := gets (fun w => clock (app w)) in
          forEach planets (update_planet now) ;;
          render_and_pick intersections ;;
          tick) w.
Proof. unfold exec. rewrite animate_eq. reflexivity. Qed.

Lemma tick_paused (w : World) :
  isPaused (app w) = true -> tick w = (Ok tt, w).
Proof. intros H. unfold tick, bind, gets. rewrite H. reflexivity. Qed.

Lemma tick_running (w : World) :
  isPaused (app w) = false ->
  tick w = (Ok tt, with_app (set_clock (wall w)) w).
Proof. intros H. unfold tick, bind, gets. rewrite H. reflexivity. Qed.

(** A dialog only writes to the document. *)
Lemma processCollision_same {B} (f : World -> B) (c : Collision) :
  (forall g w, f (with_dom g w) = f w) ->
  relates (same_on f) (processCollision c).
Proof.
  intros Hf. unfold processCollision, openDialog.
  relates_steps; unfold same_on; solve [reflexivity | apply Hf].
Qed.

Lemma render_and_pick_same {B} (f : World -> B) (hits : list Collision) :
  (forall g w, f (with_dom g w) = f w) ->
  relates (same_on f) (render_and_pick hits).
Proof.
  intros Hf. unfold render_and_pick.
  relates_steps. apply processCollision_same, Hf.
Qed.

(** The update of the planets only writes to the scene. *)
Lemma update_planet_same {B} (f : World -> B) (now : Date) (p : Planet) :
  (forall s w, f (with_app (set_scene s) w) = f w) ->
  relates (same_on f) (update_planet now p).
Proof.
  intros Hf. unfold update_planet, position_set.
  relates_steps; apply Hf.
Qed.

(** The tick only writes to the clock. *)
Lemma tick_same {B} (f : World -> B) :
  (forall t w, f (with_app (set_clock t) w) = f w) ->
  relates (same_on f) tick.
Proof. intros Hf. unfold tick. relates_steps; apply Hf. Qed.

(** A part of the world that none of the three phases writes to is the same
    after the frame. *)
Lemma animate_same {B} (f : World -> B) (hits : list Collision) :
  (forall s w, f (with_app (set_scene s) w) = f w) ->
  (forall g w, f (with_dom g w) = f w) ->
  (forall t w, f (with_app (set_clock t) w) = f w) ->
  relates (same_on f) (animate hits).
Proof.
  intros Hscene Hdom Hclock.
  eapply relates_ext; [apply animate_eq|].
  relates_steps.
  - apply update_planet_same, Hscene.
  - apply render_and_pick_same, Hdom.
  - apply tick_same, Hclock.
Qed.

Lemma animate_catalog (hits : list Collision) (w : World) :
  catalog (exec (animate hits) w) = catalog w.
Proof. apply (animate_same catalog); reflexivity. Qed.

Lemma animate_isPaused (hits : list Collision) (w : World) :
  isPaused (app (exec (animate hits) w)) = isPaused (app w).
Proof. apply (animate_same (fun w => isPaused (app w))); reflexivity. Qed.

Lemma animate_is_mouse_down (hits : list Collision) (w : World) :
  is_mouse_down (app (exec (animate hits) w)) = is_mouse_down (app w).
Proof.
  apply (animate_same (fun w => is_mouse_down (app w))); reflexivity.
Qed.

(** The scene after a frame is the published scene, whether or not the rest
    of the frame throws. *)
Lemma animate_scene (hits : list Collision) (w : World) :
  scene (app (exec (animate hits) w))
  = publish (catalog w) (clock (app w)) planets <$> scene (app w).
Proof.
  rewrite exec_animate, exec_bind. unfold gets at 1. rewrite exec_bind.
  destruct (scene (app w)) as [children|] eqn:Hs.
  - rewrite (forEach_update_planet _ _ _ _ Hs).
    set (w1 := with_app _ w).
    transitivity (scene (app w1)); [|reflexivity].
    apply (relates_bind (same_on (fun w => scene (app w)))).
    + apply render_and_pick_same. reflexivity.
    + intros _. apply tick_same. reflexivity.
  - unfold planets. cbn [forEach]. unfold bind at 1.
    rewrite update_planet_null by exact Hs. exact Hs.
Qed.

End Scene.

(* ===================================================================== *)
(** * Frames: published positions, the update rule, the pause *)
(* ===================================================================== *)

Lemma includes_elem (l : list string) (n : string) :
  includes l n = true <-> n ∈ l.
Proof.
  unfold includes. rewrite existsb_exists, list_elem_of_In. split.
  - intros (m & Hm & E). apply String.eqb_eq in E. now subst.
  - intros H. exists n. split; [exact H | apply String.eqb_refl].
Qed.

#[export] Instance frozen_preorder : PreOrder frozen.
Proof.
  split.
  - intros w. split; [reflexivity | intros _; reflexivity].
  - intros w1 w2 w3 [P12 C12] [P23 C23]. split; [congruence|].
    intros H. rewrite C23, C12; [reflexivity | exact H | congruence].
Qed.

(** What leaves the flag and the clock alone keeps the clock frozen. *)
Lemma same_on_frozen {A} (m : M A) :
  relates (same_on (fun w => (isPaused (app w), clock (app w)))) m ->
  relates frozen m.
Proof.
  intros H w. specialize (H w). unfold same_on in H.
  injection H as HP HC. split; [exact HP | intros _; exact HC].
Qed.

Section FrameClaims.

Context `{SP : Solarplanets}.

Lemma tick_frozen : relates frozen tick.
Proof.
  intros w. unfold exec. destruct (isPaused (app w)) eqn:HP.
  - rewrite tick_paused by exact HP. reflexivity.
  - rewrite tick_running by exact HP. split; [reflexivity|].
    simpl. congruence.
Qed.

Lemma animate_frozen (hits : list Collision) : relates frozen (animate hits).
Proof.
  eapply relates_ext; [apply animate_eq|].
  apply relates_bind; [apply _ | apply relates_gets; apply _ | intros now].
  apply relates_bind; [apply _ | | intros _].
  { apply same_on_frozen, relates_forEach; [apply _|]. intros p _.
    apply update_planet_same. reflexivity. }
  apply relates_bind; [apply _ | | intros _; apply tick_frozen].
  apply same_on_frozen, render_and_pick_same. reflexivity.
Qed.

(** The published scene at the place of a tracked body that has an
    entry. *)
Lemma published_position_at (cat : gmap string Elements) (now : Date)
    (children : list Object3D) (i : nat) (p : Planet) (j : nat)
    (ce : Elements) :
  planets !! i = Some p ->
  getObjectByName children (name p) = Some j ->
  cat !! toLowerCase (name p) = Some ce ->
  exists o',
    publish cat now planets children !! j = Some o' /\
    obj_name o' = name p /\
    let r := fst (getRvFromElementsDatetime ce now) in
    position o'
    = mkVector3 (spatialScale * vx r) (spatialScale * vy r)
                (spatialScale * vz r).
Proof.
  intros Hp Hj Hce.
  destruct (getObjectByName_Some _ _ _ Hj) as (o & Ho & Hname).
  eexists. rewrite publish_lookup, Ho. cbn [fmap option_fmap option_map].
  unfold published_object. rewrite Hname, Hj.
  rewrite bool_decide_eq_true_2 by reflexivity.
  assert (includes (map name planets) (name p) = true) as ->.
  { apply includes_elem, list_elem_of_fmap_2, list_elem_of_lookup_2 with i.
    exact Hp. }
  cbn [andb]. rewrite Hce.
  split; [reflexivity|]. split; [exact Hname | reflexivity].
Qed.

(** A tracked body that is in the scene, after one frame. *)
Lemma animate_published (hits : list Collision) (w : World)
    (children : list Object3D) (i : nat) (p : Planet) (j : nat) :
  planets !! i = Some p ->
  scene (app w) = Some children ->
  getObjectByName children (name p) = Some j ->
  exists o children',
    children !! j = Some o /\ obj_name o = name p /\
    scene (app (exec (animate hits) w)) = Some children' /\
    getObjectByName children' (name p) = Some j /\
    children' !! j
    = Some match catalog w !! toLowerCase (name p) with
           | Some ce =>
               set_position
                 (scaled (fst (getRvFromElementsDatetime ce (clock (app w)))))
                 o
           | None => o
           end.
Proof.
  intros Hp Hs Hj.
  destruct (getObjectByName_Some _ _ _ Hj) as (o & Ho & Hname).
  exists o, (publish (catalog w) (clock (app w)) planets children).
  split; [exact Ho|]. split; [exact Hname|].
  split; [rewrite animate_scene, Hs; reflexivity|].
  split.
  { rewrite <- Hj. apply getObjectByName_names, publish_names. }
  rewrite publish_lookup, Ho. cbn [fmap option_fmap option_map]. f_equal.
  unfold published_object. rewrite Hname, Hj.
  rewrite bool_decide_eq_true_2 by reflexivity.
  assert (includes (map name planets) (name p) = true) as ->.
  { apply includes_elem, list_elem_of_fmap_2, list_elem_of_lookup_2 with i.
    exact Hp. }
  reflexivity.
Qed.

(** C3: on a frame, for a tracked body whose scene object [o] is found
    under its name: with an entry in the catalog the propagator is called
    with that entry at the clock's instant, and the object found under the
    name afterwards has the three coordinates of the result, each times
    [spatialScale], as its position, and the name, scale, geometry and
    colour of [o]; without an entry the object is [o] itself, position
    included.  This holds whether or not the rest of the frame throws. *)
Theorem frame_updates_each_body (hits : list Collision) (w : World)
    (children : list Object3D) (i : nat) (p : Planet) (j : nat) :
  planets !! i = Some p ->
  scene (app w) = Some children ->
  getObjectByName children (name p) = Some j ->
  exists o o' children',
    children !! j = Some o /\
    scene (app (exec (animate hits) w)) = Some children' /\
    getObjectByName children' (name p) = Some j /\
    children' !! j = Some o' /\
    match catalog w !! toLowerCase (name p) with
    | Some ce =>
        let r := fst (getRvFromElementsDatetime ce (clock (app w))) in
        position o'
        = mkVector3 (spatialScale * vx r) (spatialScale * vy r)
                    (spatialScale * vz r) /\
        obj_name o' = obj_name o /\ scale o' = scale o /\
        geometry o' = geometry o /\ color o' = color o
    | None => o' = o
    end.
Proof.
  intros Hp Hs Hj.
  destruct (animate_published hits w children i p j Hp Hs Hj)
    as (o & children' & Ho & _ & Hs' & Hj' & Hlook).
  destruct (catalog w !! toLowerCase (name p)) as [ce|].
  - eexists o, _, children'.
    split; [exact Ho|]. split; [exact Hs'|]. split; [exact Hj'|].
    split; [exact Hlook|]. repeat split.
  - exists o, o, children'.
    split; [exact Ho|]. split; [exact Hs'|]. split; [exact Hj'|].
    split; [exact Hlook|]. reflexivity.
Qed.

(** C1, as the code has it: the position written to the scene object of a
    tracked body is the propagator's output multiplied, coordinate by
    coordinate, by the module's scale factor [spatialScale], which is 0.5. *)
Theorem published_position_is_scaled (hits : list Collision) (w : World)
    (children : list Object3D) (i : nat) (p : Planet) (j : nat)
    (ce : Elements) :
  planets !! i = Some p ->
  scene (app w) = Some children ->
  getObjectByName children (name p) = Some j ->
  catalog w !! toLowerCase (name p) = Some ce ->
  exists o' children',
    scene (app (exec (animate hits) w)) = Some children' /\
    children' !! j = Some o' /\ obj_name o' = name p /\
    let r := fst (getRvFromElementsDatetime ce (clock (app w))) in
    position o'
    = mkVector3 (spatialScale * vx r) (spatialScale * vy r)
                (spatialScale * vz r) /\
    spatialScale = 0.5%float.
Proof.
  intros Hp Hs Hj Hce.
  destruct (animate_published hits w children i p j Hp Hs Hj)
    as (o & children' & Ho & Hname & Hs' & Hj' & Hlook).
  rewrite Hce in Hlook.
  eexists _, children'. split; [exact Hs'|]. split; [exact Hlook|].
  split; [exact Hname|]. split; reflexivity.
Qed.

(** ** Paused frames *)

Lemma run_frame_frozen (f : Frame) (w : World) : frozen w (run_frame f w).
Proof.
  unfold run_frame.
  exact (animate_frozen (snd f) (with_wall (fst f) w)).
Qed.

Lemma run_frames_frozen (fs : list Frame) (w : World) :
  frozen w (run_frames fs w).
Proof.
  revert w. induction fs as [|f fs IH]; intros w; simpl.
  - reflexivity.
  - etransitivity; [apply run_frame_frozen | apply IH].
Qed.

Lemma run_frame_catalog (f : Frame) (w : World) :
  catalog (run_frame f w) = catalog w.
Proof. unfold run_frame. rewrite animate_catalog. reflexivity. Qed.

Lemma run_frames_catalog (fs : list Frame) (w : World) :
  catalog (run_frames fs w) = catalog w.
Proof.
  revert w. induction fs as [|f fs IH]; intros w; simpl; [reflexivity|].
  rewrite IH. apply run_frame_catalog.
Qed.

Lemma run_frame_scene (f : Frame) (w : World) :
  scene (app (run_frame f w))
  = publish (catalog w) (clock (app w)) planets <$> scene (app w).
Proof. unfold run_frame. rewrite animate_scene. reflexivity. Qed.

(** Once paused, every frame publishes the scene the first one published. *)
Lemma paused_scene (fs : list Frame) (f f0 : Frame) (w : World) :
  isPaused (app w) = true ->
  scene (app (run_frame f (run_frames fs w))) = scene (app (run_frame f0 w)).
Proof.
  revert w. induction fs as [|f1 fs IH]; intros w HP; simpl.
  - rewrite !run_frame_scene. reflexivity.
  - destruct (run_frame_frozen f1 w) as [HP1 HC1].
    rewrite IH by congruence.
    rewrite (run_frame_scene f0 (run_frame f1 w)), run_frame_catalog,
      (HC1 HP), run_frame_scene.
    rewrite (run_frame_scene f0 w).
    destruct (scene (app w)) as [children|];
      cbn [fmap option_fmap option_map]; [|reflexivity].
    rewrite publish_idempotent. reflexivity.
Qed.

(** The scene after one or more paused frames is the scene the first of
    them published: the positions for the frozen clock. *)
Lemma paused_scene_published (fs : list Frame) (f : Frame) (w : World) :
  isPaused (app w) = true ->
  scene (app (run_frame f (run_frames fs w)))
  = publish (catalog w) (clock (app w)) planets <$> scene (app w).
Proof.
  intros HP. rewrite (paused_scene fs f f w HP). apply run_frame_scene.
Qed.

(** C2, as the code has it: with the pause flag set, over any number of
    frames the flag stays set and the clock keeps its value, so that the
    clock statement of every frame is a no-op and the propagator yields the
    same position for every body.  The rest of a paused frame still runs:
    after one or more paused frames the scene is the one published for the
    frozen clock, in which the object of a body with an entry has the scaled
    output of the propagator at the frozen clock as its position.  From the
    first paused frame on, no frame changes the scene any more; the first
    one does, unless the scene already shows the positions for the clock. *)
Theorem paused_frames_freeze (w : World) (fs : list Frame) :
  isPaused (app w) = true ->
  let w' := run_frames fs w in
  tick w' = (Ok tt, w') /\
  isPaused (app w') = true /\
  clock (app w') = clock (app w) /\
  (forall p, propagated w' p = propagated w p) /\
  (forall f,
     scene (app (run_frame f w'))
     = publish (catalog w) (clock (app w)) planets <$> scene (app w)) /\
  (forall f f',
     scene (app (run_frame f' (run_frame f w')))
     = scene (app (run_frame f w'))) /\
  (scene (app w)
   = publish (catalog w) (clock (app w)) planets <$> scene (app w) ->
   scene (app w') = scene (app w)) /\
  (forall f children i p j ce,
     planets !! i = Some p ->
     scene (app w) = Some children ->
     getObjectByName children (name p) = Some j ->
     catalog w !! toLowerCase (name p) = Some ce ->
     exists o' children',
       scene (app (run_frame f w')) = Some children' /\
       children' !! j = Some o' /\ obj_name o' = name p /\
       let r := fst (getRvFromElementsDatetime ce (clock (app w))) in
       position o'
       = mkVector3 (spatialScale * vx r) (spatialScale * vy r)
                   (spatialScale * vz r)).
Proof.
  intros HP w'. destruct (run_frames_frozen fs w) as [HP' HC'].
  fold w' in HP', HC'. specialize (HC' HP). rewrite HP in HP'.
  split; [apply tick_paused, HP'|].
  split; [exact HP'|]. split; [exact HC'|]. split; [|split; [|split; [|split]]].
  - intros p. unfold propagated, w'. rewrite run_frames_catalog.
    fold w'. rewrite HC'. reflexivity.
  - intros f. apply paused_scene_published, HP.
  - intros f f'.
    assert (E : run_frame f w' = run_frames (fs ++ [f]) w).
    { unfold w', run_frames. rewrite fold_left_app. reflexivity. }
    transitivity
      (publish (catalog w) (clock (app w)) planets <$> scene (app w)).
    + rewrite E. apply paused_scene_published, HP.
    + symmetry. apply paused_scene_published, HP.
  - intros Hpub. unfold w'. clear HP' HC' w'.
    destruct fs as [|f fs _] using rev_ind; [reflexivity|].
    unfold run_frames. rewrite fold_left_app. cbn [fold_left].
    rewrite Hpub. apply paused_scene_published, HP.
  - intros f children i p j ce Hp Hs Hj Hce.
    destruct (published_position_at (catalog w) (clock (app w)) children
                i p j ce Hp Hj Hce) as (o' & Ho' & Hname & Hpos).
    exists o', (publish (catalog w) (clock (app w)) planets children).
    split; [|split; [exact Ho'|split; [exact Hname|exact Hpos]]].
    unfold w'. rewrite paused_scene_published by exact HP.
    rewrite Hs. reflexivity.
Qed.

End FrameClaims.

(* ===================================================================== *)
(** * Orbit traces *)
(* ===================================================================== *)

Section TraceClaims.

Context `{Math : MathImpl} `{SP : Solarplanets}.

Local Open Scope float_scope.

Lemma sample_point_eq (ce : Elements) (now : Date) (T_s i : float) :
  sample_point ce now T_s i
  = scaled (fst (getRvFromElementsDatetime ce
                   (new_Date (valueOf now + T_s * i / 100 * 1e3)))).
Proof.
  unfold sample_point.
  change (T_s * i / orbit_n) with (T_s * i / 100).
  destruct (getRvFromElementsDatetime _ _). reflexivity.
Qed.

Lemma circle_point_eq (radius i : float) :
  circle_point radius i
  = mkVector3 (spatialScale * radius * Math_cos (2 * Math_PI * i / 100))
              (spatialScale * radius * Math_sin (2 * Math_PI * i / 100))
              0.
Proof. reflexivity. Qed.

(** C4, as the code has it: the number of steps is fixed at 100 and the
    trace has 101 points in both branches.

    In the fallback branch the first and the last point are the circle
    points at the angles 0 and [2 * Math_PI], which is the binary64 value of
    [2 * Math_PI * 100 / 100]: the loop is closed up to the accuracy of
    [Math.cos] and [Math.sin] at these two angles.  They are the same point
    when the implementation returns the same values at both angles, and
    when it returns 1 and 0 at the angle 0 and values within [eps] of 1 and
    0 at [2 * Math_PI], they are [s r (1, 0, 0)] and [s r (ex, ey, 0)] with
    [ex] within [eps] of 1 and [ey] within [eps] of 0.

    In the catalog branch no closing point is appended: the first and the
    last point are the scaled outputs of the propagator at the dates
    [new Date(start + T * 0 / 100 * 1e3)] and
    [new Date(start + T * 100 / 100 * 1e3)] for the computed period [T].
    The first date is [new Date(start)] when [T] is finite and the invalid
    date otherwise; the last point is a sample of its own, not a copy of
    the first. *)
Theorem orbit_trace_has_101_points (radius : float) (name : string)
    (w : World) :
  exists points,
    buildOrbitTrace radius name w = (Ok (Line points 0x555555), w) /\
    geometry (Line points 0x555555) = BufferGeometry points /\
    length points = 101%nat /\
    match catalog w !! toLowerCase name with
    | None =>
        points !! 0%nat
        = Some (mkVector3 (spatialScale * radius * Math_cos 0)
                          (spatialScale * radius * Math_sin 0) 0) /\
        points !! 100%nat
        = Some (mkVector3 (spatialScale * radius * Math_cos (2 * Math_PI))
                          (spatialScale * radius * Math_sin (2 * Math_PI))
                          0) /\
        (Math_cos (2 * Math_PI) = Math_cos 0 ->
         Math_sin (2 * Math_PI) = Math_sin 0 ->
         points !! 100%nat = points !! 0%nat) /\
        (forall eps,
           Math_cos 0 = 1 -> Math_sin 0 = 0 ->
           near eps (Math_cos (2 * Math_PI)) 1 ->
           near eps (Math_sin (2 * Math_PI)) 0 ->
           exists ex ey,
             near eps ex 1 /\ near eps ey 0 /\
             points !! 0%nat
             = Some (mkVector3 (spatialScale * radius * 1)
                               (spatialScale * radius * 0) 0) /\
             points !! 100%nat
             = Some (mkVector3 (spatialScale * radius * ex)
                               (spatialScale * radius * ey) 0))
    | Some ce =>
        let now := wall w in
        let T_s := orbit_period ce now in
        points !! 0%nat
        = Some (scaled (fst (getRvFromElementsDatetime ce
                  (new_Date (valueOf now + T_s * 0 / 100 * 1e3))))) /\
        points !! 100%nat
        = Some (scaled (fst (getRvFromElementsDatetime ce
                  (new_Date (valueOf now + T_s * 100 / 100 * 1e3))))) /\
        (is_finite T_s = true ->
         points !! 0%nat
         = Some (scaled (fst (getRvFromElementsDatetime ce
                   (new_Date (valueOf now)))))) /\
        (is_finite T_s = false ->
         points !! 0%nat
         = Some (scaled (fst (getRvFromElementsDatetime ce (mkDate nan)))))
    end.
Proof.
  destruct (catalog w !! toLowerCase name) as [ce|] eqn:Hce.
  - eexists. split; [apply buildOrbitTrace_catalog, Hce|].
    split; [reflexivity|].
    split; [rewrite length_map; apply sample_indices_length|].
    cbv zeta. rewrite !sample_points_lookup, !sample_point_eq by lia.
    split; [reflexivity|]. split; [reflexivity|].
    change (sample_index 0) with 0.
    split; intros HT.
    + rewrite first_instant_finite by exact HT. reflexivity.
    + rewrite first_instant_not_finite by exact HT. reflexivity.
  - eexists. split; [apply buildOrbitTrace_fallback, Hce|].
    split; [reflexivity|].
    split; [rewrite length_map; apply sample_indices_length|].
    rewrite !sample_points_lookup by lia.
    assert (E0 : circle_point radius (sample_index 0)
                 = mkVector3 (spatialScale * radius * Math_cos 0)
                             (spatialScale * radius * Math_sin 0) 0)
      by reflexivity.
    assert (E100 : circle_point radius (sample_index 100)
                   = mkVector3
                       (spatialScale * radius * Math_cos (2 * Math_PI))
                       (spatialScale * radius * Math_sin (2 * Math_PI)) 0)
      by reflexivity.
    rewrite E0, E100.
    split; [reflexivity|]. split; [reflexivity|]. split.
    + intros -> ->. reflexivity.
    + intros eps Hc0 Hs0 Hc Hs.
      exists (Math_cos (2 * Math_PI)), (Math_sin (2 * Math_PI)).
      rewrite Hc0, Hs0. repeat split; assumption.
Qed.

(** C5, as the code has it: for a name without an entry the trace has 101
    points, the point for the counter value [k] being
    [(s r cos a, s r sin a, 0)] with [s = spatialScale], [r] the radius
    handed in and [a = 2 pi k / 100]: a circle around the origin in the
    plane [z = 0] whose radius is the reference radius times the scale
    factor. *)
Theorem fallback_trace_is_scaled_circle (radius : float) (name : string)
    (w : World) :
  catalog w !! toLowerCase name = None ->
  exists points,
    buildOrbitTrace radius name w = (Ok (Line points 0x555555), w) /\
    length points = 101%nat /\
    forall k, (k <= 100)%nat ->
      points !! k
      = Some (mkVector3
                (spatialScale * radius
                 * Math_cos (2 * Math_PI * sample_index k / 100))
                (spatialScale * radius
                 * Math_sin (2 * Math_PI * sample_index k / 100))
                0).
Proof.
  intros Hce. eexists. split; [apply buildOrbitTrace_fallback, Hce|].
  split; [rewrite length_map; apply sample_indices_length|].
  intros k Hk. rewrite sample_points_lookup by lia. reflexivity.
Qed.

(** C6: for a name with an entry [ce], with [now] the start instant.  The
    Julian date of the start is what the package computes from the UTC
    calendar fields of [now], the month counted from 1 and the milliseconds
    added to the seconds; the semi-major axis is evaluated at the Julian
    centuries of that date, from [a_au] and [da_au] in kilometres; the
    period is [2 pi sqrt (a^3 / mu)] with [mu = MU_SUN_KM3PS2]; and the point
    for the counter value [k], of 101 points, has the three coordinates of
    the propagator's output at the start instant plus [k] hundredths of the
    period, each times [spatialScale]. *)
Theorem catalog_trace_samples_one_period (radius : float) (name : string)
    (w : World) (ce : Elements) :
  catalog w !! toLowerCase name = Some ce ->
  let now := wall w in
  let JD :=
    getJdFromDateTime
      (getJ0FromDatevec (getUTCFullYear now) (getUTCMonth now + 1)
                        (getUTCDate now))
      (getUtFromTimevec (getUTCHours now) (getUTCMinutes now)
         (getUTCSeconds now + getUTCMilliseconds now * 1e-3)) in
  let T0 := getJulianCenturies JD in
  let a_km :=
    getCurrentElements (a_au ce * 1.49597871e8) (da_au ce * 1.49597871e8) T0
  in
  let T_s := 2 * Math_PI * Math_sqrt (Math_pow a_km 3 / MU_SUN_KM3PS2) in
  exists points,
    buildOrbitTrace radius name w = (Ok (Line points 0x555555), w) /\
    geometry (Line points 0x555555) = BufferGeometry points /\
    length points = 101%nat /\
    forall k, (k <= 100)%nat ->
      let r :=
        fst (getRvFromElementsDatetime ce
               (new_Date (valueOf now + T_s * sample_index k / 100 * 1e3)))
      in
      points !! k
      = Some (mkVector3 (spatialScale * vx r) (spatialScale * vy r)
                        (spatialScale * vz r)).
Proof.
  intros Hce now JD T0 a_km T_s.
  eexists. split; [apply buildOrbitTrace_catalog, Hce|].
  split; [reflexivity|].
  split; [rewrite length_map; apply sample_indices_length|].
  intros k Hk. rewrite sample_points_lookup, sample_point_eq by lia.
  reflexivity.
Qed.

(** C7, as the code has it: the trace does not read the simulation clock;
    it is the same whatever the clock holds, and every sample instant is an
    offset from the wall-clock reading taken when the trace is built. *)
Theorem orbit_trace_anchored_at_wall_clock (radius : float) (name : string)
    (w : World) (ce : Elements) :
  catalog w !! toLowerCase name = Some ce ->
  (forall c,
     outcome (buildOrbitTrace radius name) (with_app (set_clock c) w)
     = outcome (buildOrbitTrace radius name) w) /\
  outcome (buildOrbitTrace radius name) w
  = Ok (Line
          (map (fun i =>
                  scaled (fst (getRvFromElementsDatetime ce
                    (new_Date (valueOf (wall w)
                               + orbit_period ce (wall w) * i / 100 * 1e3)))))
               sample_indices)
          0x555555).
Proof.
  intros Hce. unfold outcome. split.
  - intros c.
    rewrite (buildOrbitTrace_catalog radius name w ce Hce).
    rewrite (buildOrbitTrace_catalog radius name _ ce) by exact Hce.
    reflexivity.
  - rewrite (buildOrbitTrace_catalog radius name w ce Hce).
    cbn [fst]. do 2 f_equal. apply map_ext. intros i.
    apply sample_point_eq.
Qed.

(** C8: a planet without an entry in the catalog makes neither function
    throw.  The trace is the placeholder circle; the callback of the update
    returns normally and leaves the world as it is, and the loop over the
    planets runs to its end. *)
Theorem missing_entry_is_not_a_failure (w : World) (radius : float)
    (p : Planet) (now : Date) (children : list Object3D) :
  catalog w !! toLowerCase (name p) = None ->
  scene (app w) = Some children ->
  buildOrbitTrace radius (name p) w
  = (Ok (Line (map (circle_point radius) sample_indices) 0x555555), w) /\
  update_planet now p w = (Ok tt, w) /\
  exists w', forEach planets (update_planet now) w = (Ok tt, w').
Proof.
  intros Hce Hs. split; [apply buildOrbitTrace_fallback, Hce|]. split.
  - rewrite (update_planet_run now p w children Hs).
    unfold update_children. rewrite Hce.
    destruct (getObjectByName children (name p));
      rewrite with_scene_id by exact Hs; reflexivity.
  - eexists. apply forEach_update_planet, Hs.
Qed.

End TraceClaims.

(* ===================================================================== *)
(** * The Julian date *)
(* ===================================================================== *)

(** [getJdFromDatetime] hands the UTC fields of the date to the package:
    the month counted from 1, the milliseconds folded into the seconds. *)
Lemma getJdFromDatetime_fields `{SP : Solarplanets} (dt : Date) :
  getJdFromDatetime dt
  = getJdFromDateTime
      (getJ0FromDatevec (getUTCFullYear dt) (getUTCMonth dt + 1)
                        (getUTCDate dt))
      (getUtFromTimevec (getUTCHours dt) (getUTCMinutes dt)
         (getUTCSeconds dt + getUTCMilliseconds dt * 1e-3)).
Proof. reflexivity. Qed.

(** C9: the time value 946728000000 is 2000-01-01T12:00:00.000 UTC, and
    with the standard Julian-date algorithm for the package
    [getJdFromDatetime] returns exactly 2451545.0 on it. *)
Theorem julian_date_of_j2000
    (propagator : Elements -> Date -> Vector3 * Vector3) :
  let dt := new_Date 946728000000 in
  (getUTCFullYear dt, getUTCMonth dt, getUTCDate dt,
   getUTCHours dt, getUTCMinutes dt, getUTCSeconds dt,
   getUTCMilliseconds dt)
  = (2000, 0, 1, 12, 0, 0, 0)%float /\
  @getJdFromDatetime (Fixtures.StandardSolarplanets propagator) dt
  = 2451545.0%float.
Proof. split; vm_compute; reflexivity. Qed.

(* ===================================================================== *)
(** * Dialogs *)
(* ===================================================================== *)

#[export] Instance dialog_guard_preorder (hits : list Collision) :
  PreOrder (dialog_guard hits).
Proof.
  split.
  - intros w. split; [reflexivity | left; reflexivity].
  - intros w1 w2 w3 [M12 D12] [M23 D23]. split; [congruence|].
    destruct D12 as [D12|D12]; [|right; exact D12].
    destruct D23 as [D23|[Hdown Hc]]; [left; congruence|].
    right. split; [congruence | exact Hc].
Qed.

(** What leaves the button and the document alone respects the guard. *)
Lemma same_on_guard {A} (hits : list Collision) (m : M A) :
  relates (same_on (fun w => (is_mouse_down (app w), dom w))) m ->
  relates (dialog_guard hits) m.
Proof.
  intros H w. specialize (H w). unfold same_on in H.
  injection H as HM HD. split; [exact HM | left; exact HD].
Qed.

Section DialogClaims.

Context `{SP : Solarplanets}.

Lemma processCollision_guard (hits : list Collision) (c : Collision) :
  c ∈ hits -> relates (dialog_guard hits) (processCollision c).
Proof.
  intros Hc w. split.
  { apply (processCollision_same (fun w => is_mouse_down (app w)) c).
    reflexivity. }
  unfold processCollision, exec, bind, gets.
  destruct (negb (String.eqb (obj_name (object c)) EmptyString)
            && includes (map name planets) (obj_name (object c))) eqn:E;
    [|left; reflexivity].
  destruct (is_mouse_down (app w)) eqn:Hdown; [|left; reflexivity].
  right. split; [reflexivity|]. exists c. split; [exact Hc|].
  apply andb_true_iff in E as [Hne Hin]. split.
  - intros Heq. rewrite Heq in Hne. discriminate.
  - apply includes_elem, Hin.
Qed.

Lemma animate_guard (hits : list Collision) :
  relates (dialog_guard hits) (animate hits).
Proof.
  unfold animate.
  apply relates_bind; [apply _ | apply relates_gets; apply _ | intros now].
  apply relates_bind; [apply _ | | intros _].
  { apply same_on_guard, relates_forEach; [apply _|]. intros p _.
    apply update_planet_same. reflexivity. }
  do 4 (apply relates_bind; [apply _ | relates_steps | intros _]).
  apply relates_bind; [apply _ | | intros _].
  { destruct (0 <? length hits)%nat; [|apply relates_ret; apply _].
    apply relates_forEach; [apply _|]. intros c Hc.
    apply processCollision_guard, Hc. }
  apply same_on_guard. relates_steps; reflexivity.
Qed.

Lemma processCollision_needs_pressed_planet (c : Collision) (w : World) :
  dom (exec (processCollision c) w) <> dom w ->
  is_mouse_down (app w) = true /\ is_planet_name (obj_name (object c)).
Proof.
  intros Hdom.
  destruct (processCollision_guard [c] c (list_elem_of_here _ _) w)
    as [_ [Hsame|(Hdown & c' & Hc' & Hname)]]; [contradiction|].
  apply list_elem_of_singleton in Hc'. subst c'. split; assumption.
Qed.

(** C10: if a frame changes the document, which only [openDialog] does,
    then the button is down and the raycaster reported an object whose name
    is not empty and is the name of one of the eight planets; the same holds
    for each reported object by itself.  The names of the Sun and of an
    orbit trace are not among the eight. *)
Theorem dialog_needs_pressed_planet (hits : list Collision) (w : World) :
  dom (exec (animate hits) w) <> dom w ->
  (is_mouse_down (app w) = true /\
   exists c, c ∈ hits /\
     obj_name (object c) <> EmptyString /\
     obj_name (object c) ∈ map name planets) /\
  (forall c w0,
     dom (exec (processCollision c) w0) <> dom w0 ->
     is_mouse_down (app w0) = true /\
     obj_name (object c) <> EmptyString /\
     obj_name (object c) ∈ map name planets) /\
  length planets = 8%nat /\
  ~ is_planet_name "Sun" /\
  ~ is_planet_name (obj_name (Line [] 0x555555)).
Proof.
  intros Hdom. split; [|split; [|split; [reflexivity|split]]].
  - destruct (animate_guard hits w) as [_ [Hsame|Hopen]];
      [contradiction | exact Hopen].
  - intros c w0 H. apply processCollision_needs_pressed_planet, H.
  - intros [_ H]. apply includes_elem in H. discriminate.
  - intros [H _]. apply H. reflexivity.
Qed.

End DialogClaims.

(* ===================================================================== *)
(** * The properties on the loaded page *)
(* ===================================================================== *)

Lemma float_neq_by_ltb (a b c : float) :
  PrimFloat.ltb a c <> PrimFloat.ltb b c -> a <> b.
Proof. intros H E. apply H. rewrite E. reflexivity. Qed.

Section Evaluation.

#[local] Existing Instance Fixtures.RefMath.
#[local] Existing Instance Fixtures.DriftSolarplanets.

Import Fixtures.

Example loaded_scene :
  map obj_name (children_of loaded)
  = [EmptyString; "Sun"; "Mercury"; EmptyString; "Venus"; EmptyString;
     "Earth"; EmptyString; "Mars"; EmptyString; "Jupiter"; EmptyString;
     "Saturn"; EmptyString; "Uranus"; EmptyString; "Neptune"; EmptyString].
Proof. vm_compute. reflexivity. Qed.

(** ** C1 *)

(** On the loaded page the Earth is published at [(74799130.7..., 473364000000, 0)],
    half of what the propagator returns for it. *)
Lemma published_position_not_physical :
  exists o children',
    scene (app (exec (animate []) loaded)) = Some children' /\
    children' !! 6%nat = Some o /\
    obj_name o = "Earth" /\
    position o
    <> fst (getRvFromElementsDatetime earth (clock (app loaded))).
Proof.
  eexists _, _. split; [vm_compute; reflexivity|].
  split; [reflexivity|]. split; [reflexivity|].
  intros H. apply (f_equal vy) in H. revert H.
  apply (float_neq_by_ltb _ _ 5e11). vm_compute. discriminate.
Qed.

Lemma published_position_is_scaled_witness :
  planets !! 2%nat = Some earth_planet /\
  scene (app loaded) = Some (children_of loaded) /\
  getObjectByName (children_of loaded) (name earth_planet) = Some 6%nat /\
  catalog loaded !! toLowerCase (name earth_planet) = Some earth /\
  exists o' children',
    scene (app (exec (animate []) loaded)) = Some children' /\
    children' !! 6%nat = Some o' /\ obj_name o' = name earth_planet /\
    let r := fst (getRvFromElementsDatetime earth (clock (app loaded))) in
    position o'
    = mkVector3 (spatialScale * vx r) (spatialScale * vy r)
                (spatialScale * vz r) /\
    spatialScale = 0.5%float.
Proof.
  assert (H1 : planets !! 2%nat = Some earth_planet) by reflexivity.
  assert (H2 : scene (app loaded) = Some (children_of loaded))
    by (vm_compute; reflexivity).
  assert (H3 : getObjectByName (children_of loaded) (name earth_planet)
               = Some 6%nat) by (vm_compute; reflexivity).
  assert (H4 : catalog loaded !! toLowerCase (name earth_planet)
               = Some earth) by (vm_compute; reflexivity).
  repeat (split; [assumption|]).
  exact (published_position_is_scaled [] loaded (children_of loaded)
           2 earth_planet 6 earth H1 H2 H3 H4).
Defined.

(** ** C2 *)

(** The flag is set while the scene still shows the positions for the
    clock value before the last: the first paused frame moves the Earth, by
    8000 km along the y axis, and leaves the clock alone. *)
Lemma first_paused_frame_moves_the_bodies :
  exists o o',
    isPaused (app paused) = true /\
    clock (app (run_frame (later, []) paused)) = clock (app paused) /\
    children_of paused !! 6%nat = Some o /\
    children_of (run_frame (later, []) paused) !! 6%nat = Some o' /\
    obj_name o = "Earth" /\ obj_name o' = "Earth" /\
    position o = mkVector3 74799130.725221649 473364000000 0 /\
    position o' = mkVector3 74799130.725221649 473364008000 0 /\
    position o' <> position o.
Proof.
  eexists _, _. split; [reflexivity|].
  split; [vm_compute; reflexivity|].
  split; [vm_compute; reflexivity|]. split; [vm_compute; reflexivity|].
  split; [reflexivity|]. split; [reflexivity|].
  split; [vm_compute; reflexivity|]. split; [vm_compute; reflexivity|].
  intros H. apply (f_equal vy) in H. revert H.
  apply (float_neq_by_ltb _ _ 473364004000). vm_compute. discriminate.
Qed.

(** When the first paused frame has run, the ten frames that follow change
    neither the clock nor the scene, and the Earth stays at half the
    propagator's output for the frozen clock. *)
Lemma paused_frames_freeze_witness :
  isPaused (app settled) = true /\
  length ten_frames = 10%nat /\
  scene (app settled)
  = publish (catalog settled) (clock (app settled)) planets
      <$> scene (app settled) /\
  let w' := run_frames ten_frames settled in
  tick w' = (Ok tt, w') /\
  isPaused (app w') = true /\
  clock (app w') = clock (app settled) /\
  (forall p, propagated w' p = propagated settled p) /\
  scene (app w') = scene (app settled) /\
  (forall f f',
     scene (app (run_frame f' (run_frame f w')))
     = scene (app (run_frame f w'))) /\
  exists o' children',
    scene (app (run_frame (later, []) w')) = Some children' /\
    children' !! 6%nat = Some o' /\ obj_name o' = name earth_planet /\
    let r := fst (getRvFromElementsDatetime earth (clock (app settled))) in
    position o'
    = mkVector3 (spatialScale * vx r) (spatialScale * vy r)
                (spatialScale * vz r).
Proof.
  assert (H0 : isPaused (app settled) = true) by (vm_compute; reflexivity).
  assert (H1 : scene (app settled)
               = publish (catalog settled) (clock (app settled)) planets
                   <$> scene (app settled)) by (vm_compute; reflexivity).
  assert (H2 : planets !! 2%nat = Some earth_planet) by reflexivity.
  assert (H3 : scene (app settled) = Some (children_of settled))
    by (vm_compute; reflexivity).
  assert (H4 : getObjectByName (children_of settled) (name earth_planet)
               = Some 6%nat) by (vm_compute; reflexivity).
  assert (H5 : catalog settled !! toLowerCase (name earth_planet)
               = Some earth) by (vm_compute; reflexivity).
  split; [exact H0|]. split; [reflexivity|]. split; [exact H1|].
  destruct (paused_frames_freeze settled ten_frames H0)
    as (T & P & C & R & _ & S2 & S3 & S4).
  cbv zeta.
  split; [exact T|]. split; [exact P|]. split; [exact C|].
  split; [exact R|]. split; [exact (S3 H1)|]. split; [exact S2|].
  exact (S4 (later, []) (children_of settled) 2%nat earth_planet 6%nat earth
            H2 H3 H4 H5).
Defined.

(** Unpaused, the frame moved the clock to the wall clock.  The scene it
    published was still the one for the clock value it started with, so the
    first paused frame moves the Earth to its place at the frozen instant,
    where every later frame leaves it. *)
Example running_clock : clock (app running) = later.
Proof. vm_compute. reflexivity. Qed.

Example first_paused_frame :
  vy <$> (position <$> children_of paused !! 6%nat)
  = Some 473364000000%float /\
  vy <$> (position <$>
            children_of (run_frame (later, []) paused) !! 6%nat)
  = Some 473364008000%float /\
  vy <$> (position <$>
            children_of (run_frames ten_frames paused) !! 6%nat)
  = Some 473364008000%float.
Proof. repeat split; vm_compute; reflexivity. Qed.

(** ** C3 *)

Lemma frame_updates_each_body_witness :
  planets !! 2%nat = Some earth_planet /\
  scene (app loaded) = Some (children_of loaded) /\
  getObjectByName (children_of loaded) (name earth_planet) = Some 6%nat /\
  exists o o' children',
    children_of loaded !! 6%nat = Some o /\
    scene (app (exec (animate [sun_hit]) loaded)) = Some children' /\
    getObjectByName children' (name earth_planet) = Some 6%nat /\
    children' !! 6%nat = Some o' /\
    match catalog loaded !! toLowerCase (name earth_planet) with
    | Some ce =>
        let r := fst (getRvFromElementsDatetime ce (clock (app loaded))) in
        position o'
        = mkVector3 (spatialScale * vx r) (spatialScale * vy r)
                    (spatialScale * vz r) /\
        obj_name o' = obj_name o /\ scale o' = scale o /\
        geometry o' = geometry o /\ color o' = color o
    | None => o' = o
    end.
Proof.
  assert (H1 : planets !! 2%nat = Some earth_planet) by reflexivity.
  assert (H2 : scene (app loaded) = Some (children_of loaded))
    by (vm_compute; reflexivity).
  assert (H3 : getObjectByName (children_of loaded) (name earth_planet)
               = Some 6%nat) by (vm_compute; reflexivity).
  repeat (split; [assumption|]).
  exact (frame_updates_each_body [sun_hit] loaded (children_of loaded)
           2 earth_planet 6 H1 H2 H3).
Defined.

(** The Earth has an entry: the frame puts it at half the propagator's
    output for the clock, here the instant of loading. *)
Example earth_moves :
  exists children',
    scene (app (exec (animate []) loaded)) = Some children' /\
    position <$> children' !! 6%nat
    = Some (mkVector3 74799130.725221649 473364000000 0).
Proof. eexists. split; vm_compute; reflexivity. Qed.

(** Venus has no entry: the frame leaves its sphere where the load handler
    put it, at half its reference distance on the x axis. *)
Example venus_stays :
  exists children',
    scene (app (exec (animate []) loaded)) = Some children' /\
    position <$> children' !! 4%nat
    = Some (mkVector3 54105000 0 0).
Proof. eexists. split; vm_compute; reflexivity. Qed.

(** ** C4 *)

(** The last point of the Earth's trace is the sample one period after the
    first, and differs from it. *)
Lemma catalog_trace_last_is_not_first :
  exists points first last,
    catalog loaded !! toLowerCase "Earth" = Some earth /\
    outcome (buildOrbitTrace 1.49898023e8 "Earth") loaded
    = Ok (Line points 0x555555) /\
    points !! 0%nat = Some first /\
    points !! 100%nat = Some last /\
    first <> last.
Proof.
  eexists _, _, _. split; [vm_compute; reflexivity|].
  split; [vm_compute; reflexivity|].
  split; [reflexivity|]. split; [reflexivity|].
  intros H. apply (f_equal vy) in H. revert H.
  apply (float_neq_by_ltb _ _ 4.8e11). vm_compute. discriminate.
Qed.

(** The placeholder of Venus starts at half the reference radius on the x
    axis and ends within a relative deviation of [1e-12] of that point, for
    a cosine and a sine computed by their power series. *)
Lemma orbit_trace_has_101_points_witness :
  exists points ex ey,
    buildOrbitTrace 108.21e6 "Venus" loaded
    = (Ok (Line points 0x555555), loaded) /\
    length points = 101%nat /\
    near 1e-12 ex 1 /\ near 1e-12 ey 0 /\
    points !! 0%nat
    = Some (mkVector3 (spatialScale * 108.21e6 * 1)
                      (spatialScale * 108.21e6 * 0) 0)%float /\
    points !! 100%nat
    = Some (mkVector3 (spatialScale * 108.21e6 * ex)
                      (spatialScale * 108.21e6 * ey) 0)%float.
Proof.
  destruct (orbit_trace_has_101_points 108.21e6 "Venus" loaded)
    as (points & Hrun & _ & Hlen & H).
  assert (Hc : catalog loaded !! toLowerCase "Venus" = None)
    by (vm_compute; reflexivity).
  rewrite Hc in H. destruct H as (_ & _ & _ & H).
  destruct (H 1e-12%float) as (ex & ey & Hex & Hey & H0 & H100);
    try (vm_compute; reflexivity).
  exists points, ex, ey. repeat split; assumption.
Defined.

(** The period computed for the Earth is finite, and its trace starts with
    the propagator's output at the instant the trace is built. *)
Example earth_trace_starts_now :
  is_finite (orbit_period earth (wall loaded)) = true /\
  new_Date (valueOf (wall loaded)) = wall loaded.
Proof. split; vm_compute; reflexivity. Qed.

(** ** C5 *)

(** Venus is not in the catalog; the first point of its placeholder is at
    half the reference radius from the origin. *)
Lemma fallback_circle_is_not_of_reference_radius :
  exists points first,
    catalog loaded !! toLowerCase "Venus" = None /\
    outcome (buildOrbitTrace 108.21e6 "Venus") loaded
    = Ok (Line points 0x555555) /\
    points !! 0%nat = Some first /\
    first = mkVector3 54105000 0 0 /\
    (vx first * vx first + vy first * vy first)%float
    <> (108.21e6 * 108.21e6)%float.
Proof.
  eexists _, _. split; [vm_compute; reflexivity|].
  split; [vm_compute; reflexivity|].
  split; [reflexivity|]. split; [vm_compute; reflexivity|].
  apply (float_neq_by_ltb _ _ 1e16). vm_compute. discriminate.
Qed.

Lemma fallback_trace_is_scaled_circle_witness :
  catalog loaded !! toLowerCase "Venus" = None /\
  exists points,
    buildOrbitTrace 108.21e6 "Venus" loaded
    = (Ok (Line points 0x555555), loaded) /\
    length points = 101%nat /\
    forall k, (k <= 100)%nat ->
      points !! k
      = Some (mkVector3
                (spatialScale * 108.21e6
                 * Math_cos (2 * Math_PI * sample_index k / 100))
                (spatialScale * 108.21e6
                 * Math_sin (2 * Math_PI * sample_index k / 100))
                0)%float.
Proof.
  assert (H : catalog loaded !! toLowerCase "Venus" = None)
    by (vm_compute; reflexivity).
  split; [exact H|].
  exact (fallback_trace_is_scaled_circle 108.21e6 "Venus" loaded H).
Defined.

(** ** C6 *)

Lemma catalog_trace_samples_one_period_witness :
  catalog loaded !! toLowerCase "Earth" = Some earth /\
  let now := wall loaded in
  let JD :=
    getJdFromDateTime
      (getJ0FromDatevec (getUTCFullYear now) (getUTCMonth now + 1)%float
                        (getUTCDate now))
      (getUtFromTimevec (getUTCHours now) (getUTCMinutes now)
         (getUTCSeconds now + getUTCMilliseconds now * 1e-3)%float) in
  let T0 := getJulianCenturies JD in
  let a_km :=
    getCurrentElements (a_au earth * 1.49597871e8)
                       (da_au earth * 1.49597871e8) T0 in
  let T_s :=
    (2 * Math_PI * Math_sqrt (Math_pow a_km 3 / MU_SUN_KM3PS2))%float in
  exists points,
    buildOrbitTrace 1.49898023e8 "Earth" loaded
    = (Ok (Line points 0x555555), loaded) /\
    geometry (Line points 0x555555) = BufferGeometry points /\
    length points = 101%nat /\
    forall k, (k <= 100)%nat ->
      let r :=
        fst (getRvFromElementsDatetime earth
               (new_Date (valueOf now
                          + T_s * sample_index k / 100 * 1e3)%float)) in
      points !! k
      = Some (mkVector3 (spatialScale * vx r) (spatialScale * vy r)
                        (spatialScale * vz r)).
Proof.
  assert (H : catalog loaded !! toLowerCase "Earth" = Some earth)
    by (vm_compute; reflexivity).
  split; [exact H|].
  exact (catalog_trace_samples_one_period 1.49898023e8 "Earth" loaded
           earth H).
Defined.

(** The Julian date of the instant of loading and the semi-major axis
    evaluated there, in km, for the standard package. *)
Example earth_start_epoch :
  getJdFromDatetime (wall loaded) = 2451545%float /\
  getCurrentElements (a_au earth * 1.49597871e8)
    (da_au earth * 1.49597871e8)
    (getJulianCenturies (getJdFromDatetime (wall loaded)))
  = (1.00000261 * 1.49597871e8)%float.
Proof. split; vm_compute; reflexivity. Qed.

(** The period computed for the Earth at J2000, in seconds. *)
Example earth_period :
  orbit_period earth j2000 = 31559798.852979314%float.
Proof. vm_compute. reflexivity. Qed.

(** ** C7 *)

(** With the clock paused at [later] and the wall clock 16 s further on, the
    Earth's trace starts at the wall-clock instant, not at the clock's. *)
Lemma trace_does_not_start_at_the_clock :
  exists points first,
    clock (app resampling) = later /\
    wall resampling = new_Date 946728032000 /\
    outcome (buildOrbitTrace 1.49898023e8 "Earth") resampling
    = Ok (Line points 0x555555) /\
    points !! 0%nat = Some first /\
    first
    <> scaled (fst (getRvFromElementsDatetime earth
                      (clock (app resampling)))).
Proof.
  eexists _, _. split; [vm_compute; reflexivity|].
  split; [reflexivity|]. split; [vm_compute; reflexivity|].
  split; [reflexivity|].
  intros H. apply (f_equal vy) in H. revert H.
  apply (float_neq_by_ltb _ _ 473364012000). vm_compute. discriminate.
Qed.

Lemma orbit_trace_anchored_at_wall_clock_witness :
  catalog resampling !! toLowerCase "Earth" = Some earth /\
  (forall c,
     outcome (buildOrbitTrace 1.49898023e8 "Earth")
             (with_app (set_clock c) resampling)
     = outcome (buildOrbitTrace 1.49898023e8 "Earth") resampling) /\
  outcome (buildOrbitTrace 1.49898023e8 "Earth") resampling
  = Ok (Line
          (map (fun i =>
                  scaled (fst (getRvFromElementsDatetime earth
                    (new_Date (valueOf (wall resampling)
                               + orbit_period earth (wall resampling)
                                 * i / 100 * 1e3)%float))))
               sample_indices)
          0x555555).
Proof.
  assert (H : catalog resampling !! toLowerCase "Earth" = Some earth)
    by (vm_compute; reflexivity).
  split; [exact H|].
  exact (orbit_trace_anchored_at_wall_clock 1.49898023e8 "Earth" resampling
           earth H).
Defined.

(** ** C8 *)

Lemma missing_entry_is_not_a_failure_witness :
  catalog loaded !! toLowerCase (name venus_planet) = None /\
  scene (app loaded) = Some (children_of loaded) /\
  buildOrbitTrace 108.21e6 (name venus_planet) loaded
  = (Ok (Line (map (circle_point 108.21e6) sample_indices) 0x555555),
     loaded) /\
  update_planet j2000 venus_planet loaded = (Ok tt, loaded) /\
  exists w', forEach planets (update_planet j2000) loaded = (Ok tt, w').
Proof.
  assert (H1 : catalog loaded !! toLowerCase (name venus_planet) = None)
    by (vm_compute; reflexivity).
  assert (H2 : scene (app loaded) = Some (children_of loaded))
    by (vm_compute; reflexivity).
  split; [exact H1|]. split; [exact H2|].
  exact (missing_entry_is_not_a_failure loaded 108.21e6 venus_planet j2000
           (children_of loaded) H1 H2).
Defined.

(** An empty catalog: every planet falls back, and the frame still runs. *)
Example frame_without_catalog :
  outcome (animate []) (with_catalog ∅ loaded) = Ok tt.
Proof. vm_compute. reflexivity. Qed.

(** ** C10 *)

Lemma dialog_needs_pressed_planet_witness :
  dom (exec (animate [earth_hit]) pressed) <> dom pressed /\
  (is_mouse_down (app pressed) = true /\
   exists c, c ∈ [earth_hit] /\
     obj_name (object c) <> EmptyString /\
     obj_name (object c) ∈ map name planets) /\
  (forall c w0,
     dom (exec (processCollision c) w0) <> dom w0 ->
     is_mouse_down (app w0) = true /\
     obj_name (object c) <> EmptyString /\
     obj_name (object c) ∈ map name planets) /\
  length planets = 8%nat /\
  ~ is_planet_name "Sun" /\
  ~ is_planet_name (obj_name (Line [] 0x555555)).
Proof.
  assert (H : dom (exec (animate [earth_hit]) pressed) <> dom pressed).
  { intros E. apply (f_equal dialogDisplay) in E. vm_compute in E.
    discriminate. }
  split; [exact H|].
  exact (dialog_needs_pressed_planet [earth_hit] pressed H).
Defined.

(** Hovering over the Earth, or pressing on the Sun, opens nothing. *)
Example hover_opens_nothing :
  exec (animate [earth_hit]) loaded = exec (animate []) loaded /\
  dom (exec (animate [earth_hit]) loaded) = dom loaded.
Proof. split; vm_compute; reflexivity. Qed.

Example press_on_sun_opens_nothing :
  dom (exec (animate [sun_hit]) pressed) = dom pressed.
Proof. vm_compute. reflexivity. Qed.

Example press_on_earth_opens_dialog :
  dialogContent (dom (exec (animate [earth_hit]) pressed))
  = Some "<h2>Earth</h2>" /\
  dialogDisplay (dom (exec (animate [earth_hit]) pressed)) = Some "block".
Proof. split; vm_compute; reflexivity. Qed.

End Evaluation.

(* ===================================================================== *)
(** * Further properties: the dialog *)
(* ===================================================================== *)

Lemma with_dom_id (w : World) : with_dom (fun d => d) w = w.
Proof. destruct w. reflexivity. Qed.

Lemma openDialog_no_article (n : string) (w : World) :
  articles (dom w) !! toLowerCase n = None -> openDialog n w = (Ok tt, w).
Proof. intros H. unfold openDialog, bind, gets. rewrite H. reflexivity. Qed.

Lemma dialog_ready_dialog (w : World) :
  dialog_ready w -> is_Some (dialog (dom w)).
Proof.
  intros [[c Hc] _]. unfold dialogContent in Hc.
  destruct (dialog (dom w)) as [e|]; [eexists; reflexivity | discriminate].
Qed.

Lemma openDialog_opens (n html : string) (w : World) :
  articles (dom w) !! toLowerCase n = Some html ->
  dialog_ready w ->
  openDialog n w = (Ok tt, with_dom (opened html) w).
Proof.
  intros H Hr. destruct (dialog_ready_dialog w Hr) as [e He].
  unfold openDialog, bind, gets, modify.
  rewrite H. cbn [truthy negb]. rewrite He. cbn [deref ret].
  unfold with_dom, set_dialogDisplay, set_dialogContent, opened.
  cbn [dom app catalog wall articles dialog dialogBackground body_appended].
  rewrite He. reflexivity.
Qed.

Lemma openDialog_no_dialog (n html : string) (w : World) :
  articles (dom w) !! toLowerCase n = Some html ->
  dialog (dom w) = None ->
  openDialog n w = (Throw (TypeError "innerHTML"), w).
Proof.
  intros H Hd. unfold openDialog, bind, gets. rewrite H.
  cbn [truthy negb]. rewrite Hd. reflexivity.
Qed.

(** X1: with the article of the name and both dialog elements in the page,
    [openDialog] returns normally; the dialog then holds the article's
    [innerHTML] and its parent is displayed as a block, while the articles
    and everything outside the document are as before. *)
Theorem openDialog_shows_article (n html : string) (w : World) :
  articles (dom w) !! toLowerCase n = Some html ->
  dialog_ready w ->
  outcome (openDialog n) w = Ok tt /\
  let w' := exec (openDialog n) w in
  dialogContent (dom w') = Some html /\
  dialogDisplay (dom w') = Some "block" /\
  articles (dom w') = articles (dom w) /\
  app w' = app w /\ catalog w' = catalog w /\ wall w' = wall w.
Proof.
  intros H Hr. unfold outcome, exec.
  rewrite (openDialog_opens n html w H Hr). repeat split.
Qed.

(** X4: opening the same dialog again changes nothing more, and of two
    dialogs opened one after the other the second is the one shown. *)
Theorem openDialog_last_wins (n1 n2 html1 html2 : string) (w : World) :
  articles (dom w) !! toLowerCase n1 = Some html1 ->
  articles (dom w) !! toLowerCase n2 = Some html2 ->
  dialog_ready w ->
  exec (openDialog n2) (exec (openDialog n1) w) = exec (openDialog n2) w /\
  exec (openDialog n1) (exec (openDialog n1) w) = exec (openDialog n1) w.
Proof.
  intros H1 H2 Hr.
  assert (Hr' : forall h, dialog_ready (with_dom (opened h) w)).
  { intros h. split; eexists; reflexivity. }
  unfold exec. rewrite (openDialog_opens n1 html1 w H1 Hr). cbn [snd].
  rewrite (openDialog_opens n2 html2 w H2 Hr).
  rewrite (openDialog_opens n2 html2 (with_dom (opened html1) w)) by
    (try exact H2; apply Hr').
  rewrite (openDialog_opens n1 html1 (with_dom (opened html1) w)) by
    (try exact H1; apply Hr').
  split; reflexivity.
Qed.

(* ===================================================================== *)
(** * Further properties: a frame *)
(* ===================================================================== *)

Lemma forEach_app {A} (l1 l2 : list A) (f : A -> M unit) (w : World) :
  forEach (l1 ++ l2) f w = bind (forEach l1 f) (fun _ => forEach l2 f) w.
Proof.
  revert w. induction l1 as [|a l1 IH]; intros w;
    cbn [Datatypes.app forEach].
  - reflexivity.
  - unfold bind. destruct (f a w) as [[[]|e|] w1]; try reflexivity.
    rewrite IH. reflexivity.
Qed.

Lemma planet_names_not_empty (i : nat) (p : Planet) :
  planets !! i = Some p -> name p <> EmptyString.
Proof.
  intros H. do 8 (destruct i as [|i]; [injection H as <-; discriminate|]).
  discriminate.
Qed.

(** [processCollision] either hands the name to [openDialog] or does
    nothing. *)
Lemma processCollision_eq (c : Collision) (w : World) :
  processCollision c w
  = if negb (String.eqb (obj_name (object c)) EmptyString)
       && includes (map name planets) (obj_name (object c))
       && is_mouse_down (app w)
    then openDialog (obj_name (object c)) w
    else (Ok tt, w).
Proof.
  unfold processCollision, bind, gets.
  destruct (negb _ && includes _ _); [|reflexivity].
  destruct (is_mouse_down (app w)); reflexivity.
Qed.

(** While both dialog elements exist nothing in the picking phase throws,
    and it writes to the dialog at most. *)
Lemma openDialog_ready (n : string) (w : World) :
  dialog_ready w ->
  exists w', openDialog n w = (Ok tt, w') /\ dialog_ready w' /\
    articles (dom w') = articles (dom w) /\ app w' = app w /\
    catalog w' = catalog w /\ wall w' = wall w.
Proof.
  intros Hr. destruct (articles (dom w) !! toLowerCase n) as [html|] eqn:H.
  - exists (with_dom (opened html) w).
    split; [apply openDialog_opens; assumption|].
    split; [split; eexists; reflexivity|]. repeat split.
  - exists w. split; [apply openDialog_no_article, H|].
    split; [exact Hr|]. repeat split.
Qed.

Lemma processCollision_ready (c : Collision) (w : World) :
  dialog_ready w ->
  exists w', processCollision c w = (Ok tt, w') /\ dialog_ready w' /\
    articles (dom w') = articles (dom w) /\ app w' = app w /\
    catalog w' = catalog w /\ wall w' = wall w.
Proof.
  intros Hr. rewrite processCollision_eq.
  destruct (_ && _ && _); [apply openDialog_ready, Hr|].
  exists w. split; [reflexivity|]. split; [exact Hr|]. repeat split.
Qed.

Lemma forEach_processCollision_ready (hits : list Collision) (w : World) :
  dialog_ready w ->
  exists w', forEach hits processCollision w = (Ok tt, w') /\
    dialog_ready w' /\
    articles (dom w') = articles (dom w) /\ app w' = app w /\
    catalog w' = catalog w /\ wall w' = wall w.
Proof.
  revert w. induction hits as [|c hits IH]; intros w Hr.
  - exists w. split; [reflexivity|]. split; [exact Hr|]. repeat split.
  - destruct (processCollision_ready c w Hr)
      as (w1 & E1 & Hr1 & Ha1 & Hp1 & Hc1 & Hw1).
    destruct (IH w1 Hr1) as (w2 & E2 & Hr2 & Ha2 & Hp2 & Hc2 & Hw2).
    exists w2. cbn [forEach]. unfold bind. rewrite E1, E2.
    split; [reflexivity|]. split; [exact Hr2|].
    repeat split; congruence.
Qed.

Section FrameRuns.

Context `{SP : Solarplanets}.

(** A frame on an initialised page: the scene is published, then the hits
    are processed, then the tick. *)
Lemma animate_run (hits : list Collision) (w : World) :
  initialised w ->
  animate hits w
  = bind (forEach hits processCollision) (fun _ => tick)
      (with_app (set_scene
         (publish (catalog w) (clock (app w)) planets <$> scene (app w))) w).
Proof.
  intros ([children Hs] & [c Hc] & [r Hr] & [k Hk]).
  unfold animate, bind at 1 2, gets at 1.
  rewrite (forEach_update_planet _ _ _ _ Hs), Hs.
  cbn [fmap option_fmap option_map].
  set (w1 := with_app _ w).
  unfold bind at 1 2, gets at 1. change (controls (app w1)) with
    (controls (app w)). rewrite Hc. cbn [deref ret].
  unfold bind at 1 2, gets at 1. change (renderer (app w1)) with
    (renderer (app w)). rewrite Hr. cbn [deref ret].
  unfold bind at 1 2, gets at 1. change (raycaster (app w1)) with
    (raycaster (app w)). rewrite Hk. cbn [deref ret].
  unfold bind at 1 2, gets at 1. cbn [w1 with_app app set_scene scene].
  cbn [deref ret]. fold w1.
  destruct hits as [|c0 hits]; reflexivity.
Qed.

Lemma tick_run (w : World) :
  tick w
  = (Ok tt, if isPaused (app w) then w else with_app (set_clock (wall w)) w).
Proof.
  destruct (isPaused (app w)) eqn:H;
    [apply tick_paused | apply tick_running]; exact H.
Qed.

(** On an initialised page whose dialog elements exist, a frame returns
    normally and leaves the page initialised. *)
Lemma animate_ready (hits : list Collision) (w : World) :
  initialised w ->
  dialog_ready w ->
  outcome (animate hits) w = Ok tt /\
  dialog_ready (exec (animate hits) w) /\
  initialised (exec (animate hits) w).
Proof.
  intros Hi Hr. unfold outcome, exec. rewrite (animate_run hits w Hi).
  set (w1 := with_app _ w).
  destruct (forEach_processCollision_ready hits w1 Hr)
    as (w2 & E & Hr2 & _ & Happ & _ & Hwall).
  unfold bind. rewrite E, tick_run. cbn [fst snd].
  assert (Hi2 : initialised w2).
  { destruct Hi as ([children Hs] & Hc & Hre & Hk).
    unfold initialised. rewrite Happ. unfold w1. cbn. rewrite Hs.
    repeat split; try assumption. eexists; reflexivity. }
  split; [reflexivity|].
  destruct (isPaused (app w2)); split; assumption.
Qed.

(** What the picking phase does with one reported object, by what the
    object is. *)
Lemma processCollision_opens (c : Collision) (w : World) :
  processCollision c w
  = if is_mouse_down (app w) && opens_dialog (dom w) c
    then openDialog (obj_name (object c)) w
    else (Ok tt, w).
Proof.
  rewrite processCollision_eq. unfold opens_dialog.
  destruct (negb _ && includes _ _); cbn [andb];
    [|rewrite andb_false_r; reflexivity].
  destruct (is_mouse_down (app w)); cbn [andb]; [|reflexivity].
  destruct (articles (dom w) !! _) as [html|] eqn:H; cbn [truthy];
    [reflexivity|].
  apply openDialog_no_article, H.
Qed.

Lemma opens_dialog_false (d : Dom) (hits : list Collision) :
  (forall c, c ∈ hits -> is_planet_name (obj_name (object c)) ->
     articles d !! toLowerCase (obj_name (object c)) = None) ->
  existsb (opens_dialog d) hits = false.
Proof.
  intros H. induction hits as [|c hits IH]; [reflexivity|].
  cbn [existsb]. rewrite IH by (intros c' Hc'; apply H; right; exact Hc').
  rewrite orb_false_r. unfold opens_dialog.
  destruct (negb _) eqn:Hne; [|reflexivity].
  destruct (includes _ _) eqn:Hin; [|reflexivity]. cbn [andb].
  rewrite H; [reflexivity | left |].
  split; [|apply includes_elem, Hin].
  intros E. rewrite E in Hne. discriminate.
Qed.

(** The picking phase when no reported object opens a dialog. *)
Lemma forEach_processCollision_idle (hits : list Collision) (w : World) :
  is_mouse_down (app w) && existsb (opens_dialog (dom w)) hits = false ->
  forEach hits processCollision w = (Ok tt, w).
Proof.
  induction hits as [|c hits IH]; intros H; [reflexivity|].
  cbn [forEach existsb] in *. unfold bind.
  rewrite processCollision_opens.
  destruct (is_mouse_down (app w)); cbn [andb] in *.
  - apply orb_false_iff in H as [-> H]. apply IH, H.
  - apply IH. reflexivity.
Qed.

(** The picking phase on a page without the [.DialogContent] element. *)
Lemma forEach_processCollision_no_dialog (hits : list Collision)
    (w : World) :
  dialog (dom w) = None ->
  forEach hits processCollision w
  = (if is_mouse_down (app w) && existsb (opens_dialog (dom w)) hits
     then Throw (TypeError "innerHTML") else Ok tt, w).
Proof.
  intros Hd. induction hits as [|c hits IH].
  - rewrite andb_false_r. reflexivity.
  - cbn [forEach existsb]. unfold bind. rewrite processCollision_opens.
    destruct (is_mouse_down (app w)); cbn [andb] in *; [|exact IH].
    destruct (opens_dialog (dom w) c) eqn:Hc; cbn [orb]; [|exact IH].
    unfold opens_dialog in Hc. apply andb_true_iff in Hc as [_ Hc].
    destruct (articles (dom w) !! _) as [html|] eqn:H; [|discriminate].
    rewrite (openDialog_no_dialog _ html w H Hd). reflexivity.
Qed.

(** A frame on an initialised page, split at the picking phase. *)
Lemma animate_picking (hits : list Collision) (w : World) (r : Result unit) :
  initialised w ->
  (forall w1, dom w1 = dom w -> is_mouse_down (app w1) = is_mouse_down (app w) ->
     forEach hits processCollision w1 = (r, w1)) ->
  outcome (animate hits) w = r /\ dom (exec (animate hits) w) = dom w.
Proof.
  intros Hi H. unfold outcome, exec. rewrite (animate_run hits w Hi).
  unfold bind. rewrite H by reflexivity.
  destruct r as [[]|e|]; cbn [fst snd]; try (split; reflexivity).
  rewrite tick_run. cbn [fst snd].
  split; [reflexivity|]. destruct (isPaused _); reflexivity.
Qed.

(** X2: a press on planets for which the page has no article is ignored.
    If none of the objects the raycaster reports is a planet with an
    article, the picking phase returns normally and changes nothing,
    whether the button is down or not and whether or not the page has its
    dialog elements; on an initialised page the whole frame returns normally
    and leaves the document as it was. *)
Theorem press_without_article (hits : list Collision) (w : World) :
  (forall c, c ∈ hits -> is_planet_name (obj_name (object c)) ->
     articles (dom w) !! toLowerCase (obj_name (object c)) = None) ->
  forEach hits processCollision w = (Ok tt, w) /\
  (initialised w ->
   outcome (animate hits) w = Ok tt /\ dom (exec (animate hits) w) = dom w).
Proof.
  intros H. pose proof (opens_dialog_false (dom w) hits H) as E. split.
  - apply forEach_processCollision_idle. rewrite E. apply andb_false_r.
  - intros Hi. apply animate_picking; [exact Hi|]. intros w1 Hd Hm.
    apply forEach_processCollision_idle. rewrite Hd, E. apply andb_false_r.
Qed.

(** X3: on a page without the [.DialogContent] element the picking phase
    never changes anything, and it throws a TypeError exactly when the
    button is down and one of the reported objects is a planet that has an
    article; on an initialised page the frame ends the same way, with the
    document as it was. *)
Theorem press_without_dialog_element (hits : list Collision) (w : World) :
  dialog (dom w) = None ->
  let r : Result unit :=
    if is_mouse_down (app w) && existsb (opens_dialog (dom w)) hits
    then Throw (TypeError "innerHTML") else Ok tt in
  forEach hits processCollision w = (r, w) /\
  (initialised w ->
   outcome (animate hits) w = r /\ dom (exec (animate hits) w) = dom w).
Proof.
  intros Hd r. split.
  - apply forEach_processCollision_no_dialog, Hd.
  - intros Hi. apply animate_picking; [exact Hi|]. intros w1 Hd1 Hm.
    rewrite (forEach_processCollision_no_dialog hits w1) by
      (rewrite Hd1; exact Hd).
    rewrite Hd1, Hm. reflexivity.
Qed.

(** X6: with the button down, if the last object the raycaster reports is
    a planet with an article, the frame ends with that article in the
    dialog and the dialog displayed, whatever was reported before it. *)
Theorem frame_shows_last_hit (pre : list Collision) (c : Collision)
    (i : nat) (p : Planet) (html : string) (w : World) :
  initialised w ->
  dialog_ready w ->
  is_mouse_down (app w) = true ->
  planets !! i = Some p ->
  obj_name (object c) = name p ->
  articles (dom w) !! toLowerCase (name p) = Some html ->
  outcome (animate (pre ++ [c])) w = Ok tt /\
  dialogContent (dom (exec (animate (pre ++ [c])) w)) = Some html /\
  dialogDisplay (dom (exec (animate (pre ++ [c])) w)) = Some "block".
Proof.
  intros Hi Hr Hdown Hp Hname Hart. unfold outcome, exec.
  rewrite (animate_run _ w Hi). set (w1 := with_app _ w).
  assert (exists w3,
            bind (forEach (pre ++ [c]) processCollision) (fun _ => tick) w1
            = (Ok tt, w3) /\
            dialogContent (dom w3) = Some html /\
            dialogDisplay (dom w3) = Some "block")
    as (w3 & -> & Hc & Hd); [|auto].
  destruct (forEach_processCollision_ready pre w1 Hr)
    as (w2 & E & Hr2 & Hart2 & Happ & _ & _).
  unfold bind at 1. rewrite forEach_app. unfold bind at 1.
  rewrite E. cbn [forEach]. unfold bind at 1.
  rewrite processCollision_eq, Hname, Happ.
  change (is_mouse_down (app w1)) with (is_mouse_down (app w)).
  rewrite Hdown.
  assert (includes (map name planets) (name p) = true) as ->.
  { apply includes_elem, list_elem_of_fmap_2, list_elem_of_lookup_2 with i.
    exact Hp. }
  assert (String.eqb (name p) EmptyString = false) as ->.
  { apply String.eqb_neq, (planet_names_not_empty i p Hp). }
  cbn [negb andb].
  rewrite (openDialog_opens (name p) html w2) by
    (try exact Hr2; rewrite Hart2; exact Hart).
  unfold ret. rewrite tick_run. eexists. split; [reflexivity|].
  match goal with |- context [if ?b then _ else _] => destruct b end;
    split; reflexivity.
Qed.

End FrameRuns.

Section FrameEffects.

Context `{SP : Solarplanets}.

(** [animate] is everything before the tick, then the tick. *)
Lemma animate_then_tick (hits : list Collision) (w : World) :
  animate hits w
  = bind (let* now := gets (fun w => clock (app w)) in
          forEach planets (update_planet now) ;; render_and_pick hits)
         (fun _ => tick) w.
Proof.
  rewrite animate_eq. unfold bind, gets.
  destruct (forEach planets _ w) as [[[]|e|] w1]; reflexivity.
Qed.

Lemma before_tick_same {B} (f : World -> B) (hits : list Collision) :
  (forall s w, f (with_app (set_scene s) w) = f w) ->
  (forall g w, f (with_dom g w) = f w) ->
  relates (same_on f)
    (let* now := gets (fun w => clock (app w)) in
     forEach planets (update_planet now) ;; render_and_pick hits).
Proof.
  intros Hscene Hdom. relates_steps.
  - apply update_planet_same, Hscene.
  - apply render_and_pick_same, Hdom.
Qed.

(** A computation that leaves the flag and both clocks alone, followed by
    the tick. *)
Lemma bind_tick_clock {A} (m : M A) (w : World) :
  same_on (fun w => (isPaused (app w), clock (app w), wall w)) w
          (exec m w) ->
  clock (app (snd (bind m (fun _ => tick) w)))
  = match fst (bind m (fun _ => tick) w) with
    | Ok _ => if isPaused (app w) then clock (app w) else wall w
    | _ => clock (app w)
    end.
Proof.
  unfold same_on, exec, bind.
  destruct (m w) as [[a|e|] w1]; cbn [snd fst]; intros [= HP HC HW];
    try exact HC.
  rewrite tick_run. cbn [fst snd]. rewrite HP.
  destruct (isPaused (app w)); [exact HC|]. cbn. exact HW.
Qed.

(** The clock after a frame, by the way the frame ended. *)
Lemma animate_clock (hits : list Collision) (w : World) :
  clock (app (exec (animate hits) w))
  = match outcome (animate hits) w with
    | Ok _ => if isPaused (app w) then clock (app w) else wall w
    | _ => clock (app w)
    end.
Proof.
  unfold outcome, exec. rewrite animate_then_tick.
  apply bind_tick_clock.
  apply (before_tick_same
           (fun w => (isPaused (app w), clock (app w), wall w)) hits);
    reflexivity.
Qed.

(** X5: on an initialised page whose dialog elements exist, a frame never
    throws (the calls into the rendering library taken to return); it leaves the clock where it is when the pause flag is set and
    sets it to the wall clock otherwise, and the page stays initialised. *)
Theorem frame_completes (hits : list Collision) (w : World) :
  initialised w ->
  dialog_ready w ->
  outcome (animate hits) w = Ok tt /\
  clock (app (exec (animate hits) w))
  = (if isPaused (app w) then clock (app w) else wall w) /\
  dialog_ready (exec (animate hits) w) /\
  initialised (exec (animate hits) w).
Proof.
  intros Hi Hr. destruct (animate_ready hits w Hi Hr) as (Ho & Hr' & Hi').
  split; [exact Ho|]. split; [|split; assumption].
  rewrite animate_clock, Ho. reflexivity.
Qed.

(** X7: the positions a frame computes are written whether or not the
    frame later throws, but the clock only moves in a frame that runs to its
    end: after an exception it has the value it had, paused or not. *)
Theorem frame_clock_moves_on_completion (hits : list Collision) (w : World) :
  let w' := exec (animate hits) w in
  scene (app w')
  = publish (catalog w) (clock (app w)) planets <$> scene (app w) /\
  clock (app w')
  = match outcome (animate hits) w with
    | Ok _ => if isPaused (app w) then clock (app w) else wall w
    | _ => clock (app w)
    end.
Proof. split; [apply animate_scene | apply animate_clock]. Qed.

(** X21: without the pause, the scene a frame publishes is the one for the
    wall-clock reading of the frame before it: what is shown lags one frame
    behind the clock. *)
Theorem frames_lag_by_one (f1 f2 : Frame) (w : World) :
  initialised w ->
  dialog_ready w ->
  isPaused (app w) = false ->
  clock (app (run_frame f1 w)) = fst f1 /\
  scene (app (run_frame f2 (run_frame f1 w)))
  = publish (catalog w) (fst f1) planets
      <$> scene (app (run_frame f1 w)).
Proof.
  intros Hi Hr HP.
  assert (Hc : clock (app (run_frame f1 w)) = fst f1).
  { unfold run_frame. rewrite animate_clock.
    destruct (animate_ready (snd f1) (with_wall (fst f1) w) Hi Hr)
      as (-> & _). cbn [app with_wall]. rewrite HP. reflexivity. }
  split; [exact Hc|].
  rewrite run_frame_scene, run_frame_catalog, Hc. reflexivity.
Qed.

Lemma forEach_update_null (now : Date) (w : World) :
  scene (app w) = None ->
  forEach planets (update_planet now) w
  = (Throw (TypeError "getObjectByName"), w).
Proof.
  intros Hs. unfold planets. cbn [forEach]. unfold bind at 1.
  rewrite update_planet_null by exact Hs. reflexivity.
Qed.

(** X8: a frame that runs while [window.app.scene] is still [null] throws
    a TypeError at the first planet and changes nothing. *)
Theorem frame_before_load (hits : list Collision) (w : World) :
  scene (app w) = None ->
  animate hits w = (Throw (TypeError "getObjectByName"), w).
Proof.
  intros Hs. unfold animate. unfold bind at 1 2, gets at 1.
  rewrite forEach_update_null by exact Hs. reflexivity.
Qed.

Lemma animate_articles (hits : list Collision) :
  relates (same_on (fun w => articles (dom w))) (animate hits).
Proof.
  unfold animate, update_planet, position_set, processCollision, openDialog.
  relates_steps; reflexivity.
Qed.

Lemma animate_body (hits : list Collision) :
  relates (same_on (fun w => (dialogBackground (dom w),
                              body_appended (dom w)))) (animate hits).
Proof.
  unfold animate, update_planet, position_set, processCollision, openDialog.
  relates_steps; reflexivity.
Qed.

(** X9: a frame writes to the scene, the clock and the dialog only: the
    catalog, the wall clock, the pause flag, the button state, the pointer
    position, the renderer, camera, controls and raycaster, and the articles
    of the page are what they were, and so is the rest of the document. *)
Theorem frame_leaves_the_rest (hits : list Collision) (w : World) :
  let w' := exec (animate hits) w in
  catalog w' = catalog w /\ wall w' = wall w /\
  isPaused (app w') = isPaused (app w) /\
  is_mouse_down (app w') = is_mouse_down (app w) /\
  mouse_pos (app w') = mouse_pos (app w) /\
  renderer (app w') = renderer (app w) /\
  camera (app w') = camera (app w) /\
  controls (app w') = controls (app w) /\
  raycaster (app w') = raycaster (app w) /\
  articles (dom w') = articles (dom w) /\
  dialogBackground (dom w') = dialogBackground (dom w) /\
  body_appended (dom w') = body_appended (dom w).
Proof.
  cbv zeta.
  split; [apply (animate_same catalog); reflexivity|].
  split; [apply (animate_same wall); reflexivity|].
  split; [apply (animate_same (fun w => isPaused (app w))); reflexivity|].
  split;
    [apply (animate_same (fun w => is_mouse_down (app w))); reflexivity|].
  split; [apply (animate_same (fun w => mouse_pos (app w))); reflexivity|].
  split; [apply (animate_same (fun w => renderer (app w))); reflexivity|].
  split; [apply (animate_same (fun w => camera (app w))); reflexivity|].
  split; [apply (animate_same (fun w => controls (app w))); reflexivity|].
  split; [apply (animate_same (fun w => raycaster (app w))); reflexivity|].
  split; [apply animate_articles|].
  pose proof (animate_body hits w) as H. unfold same_on in H.
  injection H as H1 H2. split; assumption.
Qed.


(** X11: the button is only looked at during a frame: a press that is
    released before the next frame opens no dialog, whatever the pointer is
    over, and neither does any frame after a release. *)
Theorem released_press_opens_nothing (hits : list Collision) (w : World) :
  dom (exec (animate hits) (exec onMouseUp (exec onMouseDown w))) = dom w /\
  dom (exec (animate hits) (exec onMouseUp w)) = dom w.
Proof.
  split.
  - destruct (animate_guard hits (exec onMouseUp (exec onMouseDown w)))
      as [_ [H|[H _]]]; [exact H | discriminate H].
  - destruct (animate_guard hits (exec onMouseUp w))
      as [_ [H|[H _]]]; [exact H | discriminate H].
Qed.

(** X12: the update of the planets is idempotent for a fixed instant:
    running it a second time leaves the world the first run produced. *)
Theorem update_is_idempotent (now : Date) (w : World) :
  exec (forEach planets (update_planet now))
       (exec (forEach planets (update_planet now)) w)
  = exec (forEach planets (update_planet now)) w.
Proof.
  unfold exec. destruct (scene (app w)) as [children|] eqn:Hs.
  - rewrite (forEach_update_planet now planets w children Hs). cbn [snd].
    rewrite (forEach_update_planet now planets _
               (publish (catalog w) now planets children)) by reflexivity.
    cbn [snd catalog with_app]. rewrite publish_idempotent. reflexivity.
  - rewrite (forEach_update_null now w Hs). cbn [snd].
    rewrite (forEach_update_null now w Hs). reflexivity.
Qed.

End FrameEffects.

(* ===================================================================== *)
(** * Further properties: loading the page *)
(* ===================================================================== *)

Lemma getObjectByName_index_of (children : list Object3D) (n : string) :
  getObjectByName children n = index_of (map obj_name children) n.
Proof.
  induction children as [|o r IH]; cbn [getObjectByName map index_of];
    [reflexivity|].
  rewrite IH. reflexivity.
Qed.

Section LoadEffects.

Context `{Math : MathImpl} `{SP : Solarplanets}.

Lemma trace_of_name cat now radius n :
  obj_name (trace_of cat now radius n) = EmptyString.
Proof. unfold trace_of. destruct (cat !! toLowerCase n); reflexivity. Qed.

(** [buildOrbitTrace] always returns, and writes nothing. *)
Lemma buildOrbitTrace_run (radius : float) (n : string) (w : World) :
  buildOrbitTrace radius n w
  = (Ok (trace_of (catalog w) (wall w) radius n), w).
Proof.
  unfold trace_of.
  destruct (catalog w !! toLowerCase n) as [ce|] eqn:H.
  - apply buildOrbitTrace_catalog, H.
  - apply buildOrbitTrace_fallback, H.
Qed.

Lemma scene_add_run (o : Object3D) (w : World) (children : list Object3D) :
  scene (app w) = Some children ->
  scene_add o w
  = (Ok tt, with_app (set_scene (Some (children ++ [o]))) w).
Proof.
  intros Hs. unfold scene_add, bind, gets, modify. rewrite Hs. reflexivity.
Qed.

Lemma wall_scene_id (w : World) (s : option (list Object3D)) :
  scene (app w) = s -> with_wall (wall w) (with_app (set_scene s) w) = w.
Proof. destruct w as [[] ? ? ?]. simpl. intros <-. reflexivity. Qed.

(** The loop of the load handler over the planets: each round adds the
    sphere and the trace built at that round's wall-clock reading. *)
Lemma forEach_add_planets (trace_time : Planet -> Date) (l : list Planet)
    (w : World) (children : list Object3D) :
  scene (app w) = Some children ->
  forEach l (fun p =>
    scene_add (buildPlanet (radius_km p)
                 (mkVector3 (semiMajorAxis_km p) 0 0)
                 (2 * Math_PI / 86400 / orbitalPeriod_days p)%float
                 (approximateColor_hex p) (name p)) ;;
    modify (with_wall (trace_time p)) ;;
    let* trace := buildOrbitTrace (semiMajorAxis_km p) (name p) in
    scene_add trace) w
  = (Ok tt,
     with_wall (wall_after trace_time l (wall w))
       (with_app (set_scene
          (Some (children
                 ++ flat_map (planet_objects (catalog w) trace_time) l))) w)).
Proof.
  revert w children. induction l as [|p l IH]; intros w children Hs.
  - cbn [forEach flat_map wall_after fold_left]. rewrite app_nil_r.
    unfold ret. rewrite wall_scene_id by exact Hs. reflexivity.
  - cbn [forEach]. unfold bind at 1 2 3 4.
    rewrite (scene_add_run _ w children Hs).
    unfold modify at 1.
    rewrite buildOrbitTrace_run.
    rewrite (scene_add_run _ _ (children ++ [planet_mesh p]))
      by reflexivity.
    rewrite (IH _ ((children ++ [planet_mesh p])
                   ++ [trace_of (catalog w) (trace_time p)
                         (semiMajorAxis_km p) (name p)])) by reflexivity.
    cbn [flat_map planet_objects catalog wall with_app with_wall wall_after
         fold_left app].
    rewrite <- !app_assoc. reflexivity.
Qed.

Lemma onWindowLoad_unparsed (innerWidth innerHeight : float) (webgl : bool)
    (trace_time : Planet -> Date) (w : World) :
  onWindowLoad None innerWidth innerHeight webgl trace_time w
  = (Throw (SyntaxError "JSON.parse"), w).
Proof. reflexivity. Qed.

(** The load handler on a catalog that parses: it ends where the renderer
    cannot be created, or where the dialog background is missing, or
    normally. *)
Lemma onWindowLoad_run (CATALOG : gmap string Elements)
    (innerWidth innerHeight : float) (webgl : bool)
    (trace_time : Planet -> Date) (w : World) :
  onWindowLoad (Some CATALOG) innerWidth innerHeight webgl trace_time w
  = if webgl then
      (if dialogBackground (dom w) then Ok tt
       else Throw (TypeError "addEventListener"),
       page_loaded CATALOG innerWidth innerHeight trace_time w)
    else
      (Throw (GenericError "Error creating WebGL context."),
       scene_loaded CATALOG innerWidth innerHeight trace_time w).
Proof.
  unfold onWindowLoad. unfold bind at 1. cbn [ret].
  do 5 (unfold bind at 1; unfold modify at 1).
  unfold bind at 1. rewrite (scene_add_run _ _ []) by reflexivity.
  unfold bind at 1.
  rewrite (scene_add_run _ _ [mkObject3D EmptyString origin unit_scale
                                (AxesHelper 1e6) None]) by reflexivity.
  unfold bind at 1.
  erewrite forEach_add_planets by reflexivity.
  destruct webgl; [|reflexivity].
  unfold bind, ret, modify, gets.
  cbn [dom with_dom with_app with_wall with_catalog appendChild
       dialogBackground].
  destruct (dialogBackground (dom w)); reflexivity.
Qed.

(** Whatever happens after the scene is complete, the scene is the one the
    loop over the planets built. *)
Lemma onWindowLoad_scene (CATALOG : gmap string Elements)
    (innerWidth innerHeight : float) (webgl : bool)
    (trace_time : Planet -> Date) (w : World) :
  let w' :=
    exec (onWindowLoad (Some CATALOG) innerWidth innerHeight webgl
            trace_time) w in
  scene (app w') = Some (loaded_children CATALOG trace_time) /\
  catalog w' = CATALOG.
Proof.
  cbv zeta. unfold exec. rewrite onWindowLoad_run.
  destruct webgl; split; reflexivity.
Qed.

(** X13: what the load handler leaves behind, by the way it ends.  When
    [JSON.parse] throws, nothing has been written.  Otherwise the catalog is
    the parsed object, the camera is the one created with the third
    argument 8e9 and the fourth 8e3 (the near and the far plane, in that
    order), and the scene holds the axes helper, the Sun and then, planet by
    planet, the sphere followed by the orbit trace built from the new
    catalog at that planet's own wall-clock reading; the pointer state, the
    clock, the pause flag, the articles and the dialog are as before.  If
    the renderer cannot be created the handler throws there, leaving
    renderer, controls, raycaster and the document as they were and the
    camera at [(0, 0, 1e7)] with the z axis up.  If it can, they are set,
    the controls having started from that pose and taken it over, and the
    canvas is appended to the document; the handler then throws a TypeError
    at the very end exactly when the page has no [.DialogBackground]
    element. *)
Theorem onWindowLoad_result (parsed : option (gmap string Elements))
    (innerWidth innerHeight : float) (webgl : bool)
    (trace_time : Planet -> Date) (w : World) :
  let run := onWindowLoad parsed innerWidth innerHeight webgl trace_time w in
  match parsed with
  | None => run = (Throw (SyntaxError "JSON.parse"), w)
  | Some CATALOG =>
      let w' := snd run in
      catalog w' = CATALOG /\
      scene (app w')
      = Some (mkObject3D EmptyString origin unit_scale (AxesHelper 1e6) None
              :: mkObject3D "Sun" origin unit_scale
                   (SphereGeometry 7e5 32 32) (Some 0xffff55%Z)
              :: flat_map
                   (fun p =>
                      [planet_mesh p;
                       trace_of CATALOG (trace_time p) (semiMajorAxis_km p)
                         (name p)])
                   planets) /\
      mouse_pos (app w') = mouse_pos (app w) /\
      is_mouse_down (app w') = is_mouse_down (app w) /\
      clock (app w') = clock (app w) /\
      isPaused (app w') = isPaused (app w) /\
      articles (dom w') = articles (dom w) /\
      dialog (dom w') = dialog (dom w) /\
      if webgl then
        fst run
        = (if dialogBackground (dom w) then Ok tt
           else Throw (TypeError "addEventListener")) /\
        renderer (app w') = Some (WebGLRenderer innerWidth innerHeight) /\
        camera (app w')
        = Some (PerspectiveCamera 60 (innerWidth / innerHeight) 8e9 8e3
                  None) /\
        controls (app w')
        = Some (OrbitControls (Some (mkVector3 0 0 1e7, mkVector3 0 0 1))) /\
        raycaster (app w') = Some Raycaster /\
        body_appended (dom w')
        = body_appended (dom w) ++ [Canvas innerWidth innerHeight]
      else
        fst run = Throw (GenericError "Error creating WebGL context.") /\
        camera (app w')
        = Some (PerspectiveCamera 60 (innerWidth / innerHeight) 8e9 8e3
                  (Some (mkVector3 0 0 1e7, mkVector3 0 0 1))) /\
        renderer (app w') = renderer (app w) /\
        controls (app w') = controls (app w) /\
        raycaster (app w') = raycaster (app w) /\
        body_appended (dom w') = body_appended (dom w)
  end.
Proof.
  destruct parsed as [CATALOG|]; [|apply onWindowLoad_unparsed].
  cbv zeta. rewrite onWindowLoad_run.
  destruct webgl; cbn [fst snd]; repeat split.
Qed.

Lemma loaded_names cat trace_time :
  map obj_name (loaded_children cat trace_time)
  = EmptyString :: "Sun"
    :: flat_map (fun p => [name p; EmptyString]) planets.
Proof.
  unfold loaded_children. cbn [map obj_name]. do 2 f_equal.
  induction planets as [|p l IH]; [reflexivity|].
  cbn [flat_map planet_objects Datatypes.app].
  cbn [map]. rewrite trace_of_name. cbn [planet_mesh buildPlanet obj_name].
  f_equal. f_equal. exact IH.
Qed.

Lemma loaded_lookup (cat : gmap string Elements) (trace_time : Planet -> Date)
    (i : nat) (p : Planet) :
  planets !! i = Some p ->
  getObjectByName (loaded_children cat trace_time) (name p)
  = Some (2 + 2 * i)%nat /\
  loaded_children cat trace_time !! (2 + 2 * i)%nat = Some (planet_mesh p).
Proof.
  intros Hp. rewrite getObjectByName_index_of, loaded_names.
  do 8 (destruct i as [|i];
        [injection Hp as <-; split; reflexivity|]).
  discriminate.
Qed.

Lemma loaded_length cat trace_time :
  length (loaded_children cat trace_time) = 18%nat.
Proof. reflexivity. Qed.

(** X14: in the scene the load handler builds, whether or not it goes on to
    create the renderer, each planet is found by its name at the index of
    its sphere, two places further for each planet before it; the sphere
    carries the planet's name and colour, a radius of a hundred times the
    planet's, the scale 2, and lies on the x axis at the reference distance
    times [spatialScale].  The scene has 18 children. *)
Theorem loaded_planets_are_found (CATALOG : gmap string Elements)
    (innerWidth innerHeight : float) (webgl : bool)
    (trace_time : Planet -> Date) (w : World) (i : nat) (p : Planet) :
  planets !! i = Some p ->
  let w' :=
    exec (onWindowLoad (Some CATALOG) innerWidth innerHeight webgl
            trace_time) w in
  exists children,
    scene (app w') = Some children /\
    length children = 18%nat /\
    getObjectByName children (name p) = Some (2 + 2 * i)%nat /\
    children !! (2 + 2 * i)%nat
    = Some (mkObject3D (name p)
              (mkVector3 (spatialScale * semiMajorAxis_km p)
                         (spatialScale * 0) (spatialScale * 0))
              (mkVector3 2 2 2)
              (SphereGeometry (1e2 * radius_km p) 32 32)
              (Some (approximateColor_hex p))).
Proof.
  intros Hp. cbv zeta.
  destruct (onWindowLoad_scene CATALOG innerWidth innerHeight webgl
              trace_time w) as [Hs _].
  destruct (loaded_lookup CATALOG trace_time i p Hp) as [Hf Hl].
  exists (loaded_children CATALOG trace_time).
  split; [exact Hs|]. split; [apply loaded_length|].
  split; [exact Hf|]. exact Hl.
Qed.

End LoadEffects.

(* ===================================================================== *)
(** * Further properties: what never moves, and the keys of the catalog *)
(* ===================================================================== *)

Lemma lower_ascii_idempotent (c : ascii) :
  lower_ascii (lower_ascii c) = lower_ascii c.
Proof. destruct c as [[] [] [] [] [] [] [] []]; reflexivity. Qed.

Lemma toLowerCase_idempotent (s : string) :
  toLowerCase (toLowerCase s) = toLowerCase s.
Proof.
  induction s as [|c s IH]; cbn [toLowerCase]; [reflexivity|].
  rewrite lower_ascii_idempotent, IH. reflexivity.
Qed.

(** A key that is not in lower case is the lower case of no name. *)
Lemma toLowerCase_misses (k n : string) :
  toLowerCase k <> k -> toLowerCase n <> k.
Proof.
  intros Hk E. apply Hk. rewrite <- E. apply toLowerCase_idempotent.
Qed.

Section Stability.

Context `{Math : MathImpl} `{SP : Solarplanets}.

Lemma published_object_names cat now l children children' j o :
  map obj_name children' = map obj_name children ->
  published_object cat now l children' j o
  = published_object cat now l children j o.
Proof.
  intros Hn. unfold published_object.
  rewrite (getObjectByName_names _ _ _ Hn). reflexivity.
Qed.

(** A child the update does not select is the same after any number of
    frames. *)
Lemma run_frames_keeps (fs : list Frame) (w : World)
    (children : list Object3D) (j : nat) (o : Object3D) :
  scene (app w) = Some children ->
  children !! j = Some o ->
  (forall now,
     published_object (catalog w) now planets children j o = o) ->
  exists children',
    scene (app (run_frames fs w)) = Some children' /\
    map obj_name children' = map obj_name children /\
    children' !! j = Some o.
Proof.
  revert w children. induction fs as [|f fs IH]; intros w children Hs Ho Hk.
  - exists children. repeat split; assumption.
  - cbn [run_frames fold_left].
    set (children1 := publish (catalog w) (clock (app w)) planets children).
    assert (Hn1 : map obj_name children1 = map obj_name children)
      by apply publish_names.
    destruct (IH (run_frame f w) children1) as (children' & Hs' & Hn' & Ho').
    + rewrite run_frame_scene, Hs. reflexivity.
    + unfold children1. rewrite publish_lookup, Ho.
      cbn [fmap option_fmap option_map]. rewrite Hk. reflexivity.
    + intros now. rewrite run_frame_catalog.
      rewrite (published_object_names _ _ _ _ _ _ _ Hn1). apply Hk.
    + exists children'. split; [exact Hs'|]. split; [congruence|exact Ho'].
Qed.

(** X15: a planet without an entry in the catalog is placed once, by the
    load handler, and never moved: after any number of frames, paused or
    not, completed or not, its sphere is the one that was built, on the x
    axis.  The same holds for the Sun. *)
Theorem fallback_planet_never_moves (CATALOG : gmap string Elements)
    (innerWidth innerHeight : float) (webgl : bool)
    (trace_time : Planet -> Date) (w0 : World) (fs : list Frame)
    (i : nat) (p : Planet) :
  planets !! i = Some p ->
  CATALOG !! toLowerCase (name p) = None ->
  let w :=
    run_frames fs
      (exec (onWindowLoad (Some CATALOG) innerWidth innerHeight webgl
               trace_time) w0) in
  exists children,
    scene (app w) = Some children /\
    children !! (2 + 2 * i)%nat = Some (planet_mesh p) /\
    children !! 1%nat
    = Some (mkObject3D "Sun" origin unit_scale (SphereGeometry 7e5 32 32)
              (Some 0xffff55%Z)).
Proof.
  intros Hp Hce. cbv zeta.
  destruct (onWindowLoad_scene CATALOG innerWidth innerHeight webgl
              trace_time w0) as [Hscene Hcat].
  set (w := exec _ w0) in *.
  destruct (loaded_lookup CATALOG trace_time i p Hp) as [_ Hmesh].
  destruct (run_frames_keeps fs w (loaded_children CATALOG trace_time)
              (2 + 2 * i) (planet_mesh p) Hscene Hmesh)
    as (children & Hs & Hn & Ho).
  { intros now. unfold published_object.
    change (obj_name (planet_mesh p)) with (name p).
    rewrite Hcat, Hce.
    destruct (_ && _); reflexivity. }
  destruct (run_frames_keeps fs w (loaded_children CATALOG trace_time) 1
              (mkObject3D "Sun" origin unit_scale (SphereGeometry 7e5 32 32)
                 (Some 0xffff55%Z)) Hscene eq_refl)
    as (children2 & Hs2 & _ & Ho2).
  { intros now. unfold published_object. cbn [obj_name].
    replace (includes (map name planets) "Sun") with false by reflexivity.
    rewrite andb_false_r. reflexivity. }
  exists children. split; [exact Hs|]. split; [exact Ho|].
  congruence.
Qed.

Lemma publish_ext cat cat' now l children :
  (forall p, p ∈ l ->
     cat !! toLowerCase (name p) = cat' !! toLowerCase (name p)) ->
  publish cat now l children = publish cat' now l children.
Proof.
  unfold publish. revert children.
  induction l as [|p l IH]; intros children H; cbn [fold_left];
    [reflexivity|].
  assert (update_children cat now children p
          = update_children cat' now children p) as ->.
  { unfold update_children. rewrite (H p) by left. reflexivity. }
  apply IH. intros q Hq. apply H. right. exact Hq.
Qed.

(** X16: every lookup in the catalog is under a lower-cased name, so an
    entry filed under a key that is not in lower case is never found: adding
    one changes neither a trace nor the scene a frame publishes. *)
Theorem entry_under_other_case_is_ignored (k : string) (e : Elements)
    (w : World) :
  toLowerCase k <> k ->
  let w' := with_catalog (<[k := e]> (catalog w)) w in
  (forall radius n,
     outcome (buildOrbitTrace radius n) w'
     = outcome (buildOrbitTrace radius n) w) /\
  (forall hits,
     scene (app (exec (animate hits) w'))
     = scene (app (exec (animate hits) w))).
Proof.
  intros Hk. cbv zeta. split.
  - intros radius n. unfold outcome. rewrite !buildOrbitTrace_run.
    cbn [fst catalog wall with_catalog]. unfold trace_of.
    rewrite lookup_insert_ne by (apply not_eq_sym, toLowerCase_misses, Hk).
    reflexivity.
  - intros hits. rewrite !animate_scene. cbn [catalog with_catalog app].
    destruct (scene (app w)) as [children|]; [|reflexivity].
    cbn [fmap option_fmap option_map]. f_equal.
    apply publish_ext. intros p _.
    apply lookup_insert_ne, not_eq_sym, toLowerCase_misses, Hk.
Qed.

End Stability.

(** X17: the placeholder trace of a name without an entry consults neither
    the [solarplanets] package nor a clock: it is the same for any two
    packages and in any two worlds whose catalogs lack the name. *)
Theorem placeholder_is_static `{Math : MathImpl} (SP SP' : Solarplanets)
    (radius : float) (n : string) (w w' : World) :
  catalog w !! toLowerCase n = None ->
  catalog w' !! toLowerCase n = None ->
  outcome (@buildOrbitTrace Math SP radius n) w
  = outcome (@buildOrbitTrace Math SP' radius n) w'.
Proof.
  intros H H'. unfold outcome.
  rewrite (@buildOrbitTrace_fallback Math SP radius n w H).
  rewrite (@buildOrbitTrace_fallback Math SP' radius n w' H').
  reflexivity.
Qed.

(** X18: for a name with an entry the reference radius handed to
    [buildOrbitTrace] plays no part: the trace is the same for any two
    radii. *)
Theorem catalog_trace_ignores_radius `{Math : MathImpl} `{SP : Solarplanets}
    (radius radius' : float) (n : string) (w : World) (ce : Elements) :
  catalog w !! toLowerCase n = Some ce ->
  buildOrbitTrace radius n w = buildOrbitTrace radius' n w.
Proof.
  intros H. rewrite !(buildOrbitTrace_catalog _ n w ce H). reflexivity.
Qed.

(* ===================================================================== *)
(** * Further properties: the calendar fields of a date *)
(* ===================================================================== *)

Lemma DayFromYear_step (y : Z) : DayFromYear (y + 1) = DayFromYear y + DaysInYear y.
Proof.
  unfold DayFromYear, DaysInYear.
  destruct (Z.eqb_spec (y mod 4) 0), (Z.eqb_spec (y mod 100) 0), (Z.eqb_spec (y mod 400) 0);
    cbn [negb]; Z.div_mod_to_equations; lia.
Qed.

Lemma DayFromYear_lower (n : Z) : 
  (0 <= n -> 365 * n <= DayFromYear (1970 + n)) /\ (n <= 0 -> 366 * n <= DayFromYear (1970 + n)).
Proof. unfold DayFromYear. split; intros; Z.div_mod_to_equations; lia. Qed.

Lemma DayFromYear_upper (n : Z) : 
  (0 <= n -> DayFromYear (1970 + n) <= 366 * n) /\ (n <= 0 -> DayFromYear (1970 + n) <= 365 * n).
Proof. unfold DayFromYear. split; intros; Z.div_mod_to_equations; lia. Qed.

Lemma year_search_spec (fuel : nat) (y0 t : Z) :
  t < TimeFromYear (y0 + 1) ->
  (exists y1, y0 - Z.of_nat fuel < y1 <= y0 /\ TimeFromYear y1 <= t) ->
  TimeFromYear (year_search fuel y0 t) <= t
  < TimeFromYear (year_search fuel y0 t + 1).
Proof.
  revert y0. induction fuel as [|fuel IH]; intros y0 Hup (y1 & Hy1 & Ht1).
  - lia.
  - cbn [year_search]. destruct (Z.leb_spec (TimeFromYear y0) t) as [H|H].
    + lia.
    + apply IH.
      * replace (y0 - 1 + 1) with y0 by lia. exact H.
      * exists y1. split; [|exact Ht1].
        assert (y1 <> y0) by (intros ->; lia). lia.
Qed.

Lemma year_bounds (t d : Z) :
  valid_time t ->
  d = Day t ->
  t < TimeFromYear (1971 + Z.max (d / 365) (d / 366) + 1) /\
  exists y1,
    1971 + Z.max (d / 365) (d / 366) - 2000 < y1
    <= 1971 + Z.max (d / 365) (d / 366) /\
    TimeFromYear y1 <= t.
Proof.
  intros Hv ->. set (d := Day t).
  assert (Hd : msPerDay * d <= t < msPerDay * (d + 1)).
  { unfold d, Day, msPerDay. Z.div_mod_to_equations. lia. }
  assert (Hdb : -100000000 <= d <= 100000000).
  { unfold valid_time, msPerDay in *. lia. }
  clearbody d. split.
  - unfold TimeFromYear.
    assert (d < DayFromYear (1971 + Z.max (d / 365) (d / 366) + 1)).
    { pose proof (DayFromYear_lower (2 + Z.max (d / 365) (d / 366)))
        as [L1 L2].
      replace (1970 + (2 + Z.max (d / 365) (d / 366)))
        with (1971 + Z.max (d / 365) (d / 366) + 1) in * by lia.
      Z.div_mod_to_equations. lia. }
    unfold msPerDay in *. lia.
  - exists (1970 + (Z.min (d / 365) (d / 366) - 1)). split.
    + Z.div_mod_to_equations. lia.
    + unfold TimeFromYear.
      pose proof (DayFromYear_upper (Z.min (d / 365) (d / 366) - 1))
        as [U1 U2].
      assert (DayFromYear (1970 + (Z.min (d / 365) (d / 366) - 1)) <= d).
      { Z.div_mod_to_equations. lia. }
      unfold msPerDay in *. lia.
Qed.

Lemma YearFromTime_spec (t : Z) :
  valid_time t ->
  TimeFromYear (YearFromTime t) <= t < TimeFromYear (YearFromTime t + 1).
Proof.
  intros Hv. destruct (year_bounds t (Day t) Hv eq_refl) as [Hup Hlow].
  exact (year_search_spec 2000 _ t Hup Hlow).
Qed.

Lemma DayWithinYear_range (t : Z) :
  valid_time t ->
  0 <= DayWithinYear t < DaysInYear (YearFromTime t).
Proof.
  intros Hv. pose proof (YearFromTime_spec t Hv) as H.
  unfold DayWithinYear. revert H. generalize (YearFromTime t) as y.
  intros y H. unfold TimeFromYear in H. rewrite DayFromYear_step in H.
  generalize dependent (DayFromYear y). generalize (DaysInYear y).
  intros n dy H. unfold Day, msPerDay in *. Z.div_mod_to_equations. lia.
Qed.

Lemma DaysInYear_cases (y : Z) : DaysInYear y = 365 \/ DaysInYear y = 366.
Proof. unfold DaysInYear. repeat destruct (negb _); auto. Qed.

Lemma InLeapYear_days (t : Z) :
  (InLeapYear t = 0 \/ InLeapYear t = 1) /\
  DaysInYear (YearFromTime t) = 365 + InLeapYear t.
Proof.
  unfold InLeapYear. generalize (YearFromTime t) as y. intros y.
  destruct (DaysInYear_cases y) as [E|E]; rewrite E.
  - change (365 =? 366) with false. cbv iota. split; [left|]; reflexivity.
  - change (366 =? 366) with true. cbv iota. split; [right|]; reflexivity.
Qed.

Lemma time_within_day (t : Z) :
  t = msPerDay * Day t + HourFromTime t * msPerHour
      + MinFromTime t * msPerMinute + SecFromTime t * msPerSecond
      + msFromTime t /\
  0 <= HourFromTime t <= 23 /\ 0 <= MinFromTime t <= 59 /\
  0 <= SecFromTime t <= 59 /\ 0 <= msFromTime t <= 999.
Proof.
  unfold Day, HourFromTime, MinFromTime, SecFromTime, msFromTime,
    msPerDay, msPerHour, msPerMinute, msPerSecond.
  Z.div_mod_to_equations. lia.
Qed.

Lemma DaysInYear_leap (y : Z) :
  DaysInYear y = if is_leap_year y then 366 else 365.
Proof.
  unfold DaysInYear, is_leap_year.
  destruct (y mod 4 =? 0), (y mod 100 =? 0), (y mod 400 =? 0); reflexivity.
Qed.

Lemma DayFromYear_epoch :
  DayFromYear 1970 = 0 /\
  forall y, DayFromYear (y + 1)
            = DayFromYear y + if is_leap_year y then 366 else 365.
Proof.
  split; [reflexivity|]. intros y.
  rewrite DayFromYear_step, DaysInYear_leap. reflexivity.
Qed.

Lemma DayFromYear_mono (a b : Z) : a <= b -> DayFromYear a <= DayFromYear b.
Proof. unfold DayFromYear. intros H. Z.div_mod_to_equations. lia. Qed.

Lemma InLeapYear_leap (t : Z) :
  InLeapYear t = if is_leap_year (YearFromTime t) then 1 else 0.
Proof.
  unfold InLeapYear. rewrite DaysInYear_leap.
  destruct (is_leap_year _); reflexivity.
Qed.

(** Month by month, the start of a month and its length, for the month
    counted from 1. *)
Lemma month_table (y m : Z) :
  1 <= m <= 12 ->
  let l := if is_leap_year y then 1 else 0 in
  days_before_month y m = MonthStart (m - 1) l /\
  days_in_month y m = MonthLength (m - 1) l.
Proof.
  intros H.
  assert (m = 1 \/ m = 2 \/ m = 3 \/ m = 4 \/ m = 5 \/ m = 6 \/ m = 7
          \/ m = 8 \/ m = 9 \/ m = 10 \/ m = 11 \/ m = 12) as E by lia.
  unfold days_before_month, days_in_month, month_lengths.
  repeat (destruct E as [->|E]);
    try subst m; destruct (is_leap_year y); split; reflexivity.
Qed.

(** The day of the year determines the month and the day of the month. *)
Lemma month_of_day (dwy l m d : Z) (t : Z) :
  DayWithinYear t = dwy -> InLeapYear t = l ->
  (l = 0 \/ l = 1) ->
  0 <= m <= 11 ->
  1 <= d <= MonthLength m l ->
  MonthStart m l + (d - 1) = dwy ->
  MonthFromTime t = m /\ DateFromTime t = d.
Proof.
  intros Hdwy Hl Hl01 Hm Hd Hs.
  unfold DateFromTime, MonthFromTime. cbv zeta. rewrite Hdwy, Hl.
  clear Hdwy Hl t.
  assert (m = 0 \/ m = 1 \/ m = 2 \/ m = 3 \/ m = 4 \/ m = 5 \/ m = 6
          \/ m = 7 \/ m = 8 \/ m = 9 \/ m = 10 \/ m = 11) as E by lia.
  repeat (destruct E as [->|E]); try subst m;
    cbn [MonthStart MonthLength] in Hd, Hs;
    repeat match goal with
           | |- context [if ?a <? ?b then _ else _] =>
               destruct (Z.ltb_spec a b); try lia
           end; split; lia.
Qed.

Lemma month_and_date_length (t : Z) :
  valid_time t ->
  let l := InLeapYear t in
  0 <= MonthFromTime t <= 11 /\
  1 <= DateFromTime t <= MonthLength (MonthFromTime t) l /\
  MonthStart (MonthFromTime t) l + (DateFromTime t - 1) = DayWithinYear t.
Proof.
  intros Hv. pose proof (DayWithinYear_range t Hv) as Hd.
  destruct (InLeapYear_days t) as [Hl E]. rewrite E in Hd. clear E.
  unfold DateFromTime, MonthFromTime. cbv zeta.
  set (dwy := DayWithinYear t) in *. set (l := InLeapYear t) in *.
  clearbody dwy l. clear Hv.
  repeat match goal with
         | |- context [if ?a <? ?b then _ else _] =>
             destruct (Z.ltb_spec a b)
         end; cbn [MonthStart MonthLength]; lia.
Qed.

Lemma day_of_year_range (m l d : Z) :
  0 <= m <= 11 -> (l = 0 \/ l = 1) -> 1 <= d <= MonthLength m l ->
  0 <= MonthStart m l + (d - 1) < 365 + l.
Proof.
  intros Hm Hl Hd.
  assert (m = 0 \/ m = 1 \/ m = 2 \/ m = 3 \/ m = 4 \/ m = 5 \/ m = 6
          \/ m = 7 \/ m = 8 \/ m = 9 \/ m = 10 \/ m = 11) as E by lia.
  repeat (destruct E as [->|E]); try subst m;
    cbn [MonthStart MonthLength] in *; lia.
Qed.

Lemma Day_range (t : Z) :
  valid_time t ->
  DayFromYear (YearFromTime t) <= Day t
  < DayFromYear (YearFromTime t + 1).
Proof.
  intros Hv. pose proof (YearFromTime_spec t Hv) as H.
  revert H. generalize (YearFromTime t) as y. intros y H.
  unfold TimeFromYear in H.
  generalize dependent (DayFromYear (y + 1)).
  generalize (DayFromYear y).
  intros a b H. unfold Day, msPerDay in *. Z.div_mod_to_equations. lia.
Qed.

(** A year is determined by the day it contains. *)
Lemma year_of_day (y y' D : Z) :
  DayFromYear y <= D < DayFromYear (y + 1) ->
  DayFromYear y' <= D < DayFromYear (y' + 1) ->
  y = y'.
Proof.
  intros H H'.
  destruct (Z.lt_trichotomy y y') as [L|[E|L]]; [|exact E|].
  - pose proof (DayFromYear_mono (y + 1) y' ltac:(lia)). lia.
  - pose proof (DayFromYear_mono (y' + 1) y ltac:(lia)). lia.
Qed.

Lemma leap_days (y : Z) :
  (if is_leap_year y then 1 else 0) = 0 \/
  (if is_leap_year y then 1 else 0) = 1.
Proof. destruct (is_leap_year y); auto. Qed.

(** The fields the getters return are a date of the calendar, and encode
    the time value. *)
Lemma fields_of_time (t : Z) :
  valid_time t ->
  calendar_fields (YearFromTime t) (MonthFromTime t + 1) (DateFromTime t)
    (HourFromTime t) (MinFromTime t) (SecFromTime t) (msFromTime t) /\
  time_value (YearFromTime t) (MonthFromTime t + 1) (DateFromTime t)
    (HourFromTime t) (MinFromTime t) (SecFromTime t) (msFromTime t) = t.
Proof.
  intros Hv.
  destruct (month_and_date_length t Hv) as (Hm & Hd & Hstart).
  destruct (time_within_day t) as (Ht & HH & HM & HS & Hms).
  destruct (month_table (YearFromTime t) (MonthFromTime t + 1)
              ltac:(lia)) as [Hbefore Hlen].
  rewrite Z.add_simpl_r, <- InLeapYear_leap in Hbefore, Hlen.
  unfold calendar_fields, time_value. rewrite Hbefore, Hlen.
  split; [repeat (split; [lia|]); lia|].
  unfold DayWithinYear in Hstart.
  revert Hstart Ht.
  generalize (MonthStart (MonthFromTime t) (InLeapYear t)),
    (DateFromTime t), (Day t), (DayFromYear (YearFromTime t)),
    (HourFromTime t), (MinFromTime t), (SecFromTime t), (msFromTime t).
  intros a b c d e f g h Hstart Ht. lia.
Qed.

(** No other date of the calendar encodes the time value. *)
Lemma fields_unique (t y m d H M s ms : Z) :
  valid_time t ->
  calendar_fields y m d H M s ms ->
  time_value y m d H M s ms = t ->
  y = YearFromTime t /\ m = MonthFromTime t + 1 /\ d = DateFromTime t /\
  H = HourFromTime t /\ M = MinFromTime t /\ s = SecFromTime t /\
  ms = msFromTime t.
Proof.
  intros Hv (Hm & Hd & HH & HM & Hs & Hms) Ht.
  destruct (month_table y m Hm) as [Hbefore Hlen]. cbv zeta in *.
  unfold time_value in Ht. rewrite Hbefore in Ht. rewrite Hlen in Hd.
  pose proof (leap_days y) as Hl.
  pose proof (day_of_year_range (m - 1) _ d ltac:(lia) Hl Hd) as Hdoy.
  pose proof (DayFromYear_epoch) as [_ Hstep].
  pose proof (Hstep y) as Hy.
  assert (HD : Day t
               = DayFromYear y
                 + MonthStart (m - 1) (if is_leap_year y then 1 else 0)
                 + (d - 1)).
  { revert Ht.
    generalize (DayFromYear y
                + MonthStart (m - 1) (if is_leap_year y then 1 else 0)
                + (d - 1)).
    intros D Ht. unfold Day, msPerDay, msPerHour, msPerMinute, msPerSecond
      in *. Z.div_mod_to_equations. lia. }
  assert (Ey : y = YearFromTime t).
  { apply (year_of_day _ _ (Day t)); [|apply Day_range, Hv].
    rewrite Hy, HD. destruct (is_leap_year y); lia. }
  assert (Hleap : InLeapYear t = if is_leap_year y then 1 else 0).
  { rewrite InLeapYear_leap, <- Ey. reflexivity. }
  assert (Hdwy : DayWithinYear t
                 = MonthStart (m - 1) (if is_leap_year y then 1 else 0)
                   + (d - 1)).
  { unfold DayWithinYear. rewrite <- Ey, HD. lia. }
  destruct (month_of_day _ _ (m - 1) d t Hdwy Hleap Hl ltac:(lia) Hd
              eq_refl) as [Emonth Edate].
  split; [exact Ey|]. split; [lia|]. split; [lia|].
  clear Hdwy Hleap Ey Emonth Edate Hdoy Hy Hstep Hlen Hbefore.
  revert Ht HD.
  generalize (DayFromYear y
              + MonthStart (m - 1) (if is_leap_year y then 1 else 0)
              + (d - 1)).
  intros D Ht HD.
  unfold HourFromTime, MinFromTime, SecFromTime, msFromTime, Day,
    msPerDay, msPerHour, msPerMinute, msPerSecond in *.
  Z.div_mod_to_equations. lia.
Qed.

Lemma of_Z_month (m : Z) :
  0 <= m <= 11 -> (of_Z m + 1)%float = of_Z (m + 1).
Proof.
  intros H.
  assert (m = 0 \/ m = 1 \/ m = 2 \/ m = 3 \/ m = 4 \/ m = 5 \/ m = 6
          \/ m = 7 \/ m = 8 \/ m = 9 \/ m = 10 \/ m = 11) as E by lia.
  repeat (destruct E as [->|E]; [reflexivity|]). subst m. reflexivity.
Qed.

(** X19: for a valid Date, [getJdFromDatetime] hands the package the UTC
    calendar date and time of day of its time value: the year, the month
    from 1 to 12 (the getter counts from 0 and the function adds 1), a day
    that exists in that month of that year, hours, minutes and seconds in
    their ranges, with the milliseconds added to the seconds as thousandths.
    These fields encode the time value, and they are the only date of the
    calendar that does; the days before a year are counted from 1970 with
    365 days for a common year and 366 for a leap year. *)
Theorem getJdFromDatetime_calendar `{SP : Solarplanets} (dt : Date) (t : Z) :
  to_Z (valueOf dt) = Some t ->
  valid_time t ->
  exists y m d H M s ms : Z,
    calendar_fields y m d H M s ms /\
    time_value y m d H M s ms = t /\
    (forall y' m' d' H' M' s' ms',
       calendar_fields y' m' d' H' M' s' ms' ->
       time_value y' m' d' H' M' s' ms' = t ->
       (y', m', d', H', M', s', ms') = (y, m, d, H, M, s, ms)) /\
    (DayFromYear 1970 = 0 /\
     forall y0,
       DayFromYear (y0 + 1)
       = DayFromYear y0 + if is_leap_year y0 then 366 else 365) /\
    getJdFromDatetime dt
    = getJdFromDateTime
        (getJ0FromDatevec (of_Z y) (of_Z m) (of_Z d))
        (getUtFromTimevec (of_Z H) (of_Z M)
           (of_Z s + of_Z ms * 1e-3)%float).
Proof.
  intros Ht Hv.
  exists (YearFromTime t), (MonthFromTime t + 1), (DateFromTime t),
    (HourFromTime t), (MinFromTime t), (SecFromTime t), (msFromTime t).
  destruct (fields_of_time t Hv) as [Hfields Hvalue].
  split; [exact Hfields|]. split; [exact Hvalue|]. split.
  { intros y' m' d' H' M' s' ms' Hf' Hv'.
    destruct (fields_unique t y' m' d' H' M' s' ms' Hv Hf' Hv')
      as (-> & -> & -> & -> & -> & -> & ->).
    reflexivity. }
  split; [exact DayFromYear_epoch|].
  destruct Hfields as (Hm & _).
  rewrite getJdFromDatetime_fields.
  unfold getUTCFullYear, getUTCMonth, getUTCDate, getUTCHours,
    getUTCMinutes, getUTCSeconds, getUTCMilliseconds, utc_field.
  rewrite Ht, of_Z_month by lia. reflexivity.
Qed.

(** X20: on an invalid Date every field handed to the package is NaN. *)
Theorem getJdFromDatetime_invalid `{SP : Solarplanets} (dt : Date) :
  to_Z (valueOf dt) = None ->
  getJdFromDatetime dt
  = getJdFromDateTime (getJ0FromDatevec nan nan nan)
                      (getUtFromTimevec nan nan nan).
Proof.
  intros H. rewrite getJdFromDatetime_fields.
  unfold getUTCFullYear, getUTCMonth, getUTCDate, getUTCHours,
    getUTCMinutes, getUTCSeconds, getUTCMilliseconds, utc_field.
  rewrite H. reflexivity.
Qed.

(* ===================================================================== *)
(** * The further properties on the loaded page *)
(* ===================================================================== *)

Section FurtherEvaluation.

#[local] Existing Instance Fixtures.RefMath.
#[local] Existing Instance Fixtures.DriftSolarplanets.

Import Fixtures.

Lemma loaded_dialog_ready : dialog_ready loaded.
Proof. split; eexists; vm_compute; reflexivity. Qed.

Lemma loaded_initialised : initialised loaded.
Proof. repeat split; eexists; vm_compute; reflexivity. Qed.

Lemma openDialog_shows_article_witness :
  articles (dom loaded) !! toLowerCase "Earth" = Some "<h2>Earth</h2>" /\
  dialog_ready loaded /\
  outcome (openDialog "Earth") loaded = Ok tt /\
  let w' := exec (openDialog "Earth") loaded in
  dialogContent (dom w') = Some "<h2>Earth</h2>" /\
  dialogDisplay (dom w') = Some "block" /\
  articles (dom w') = articles (dom loaded) /\
  app w' = app loaded /\ catalog w' = catalog loaded /\
  wall w' = wall loaded.
Proof.
  assert (H : articles (dom loaded) !! toLowerCase "Earth"
              = Some "<h2>Earth</h2>") by (vm_compute; reflexivity).
  split; [exact H|]. split; [exact loaded_dialog_ready|].
  exact (openDialog_shows_article "Earth" "<h2>Earth</h2>" loaded H
           loaded_dialog_ready).
Defined.

(** The button is down over Venus, for which the page has no article, with
    the Sun behind it. *)
Lemma press_without_article_witness :
  (forall c, c ∈ [venus_hit; sun_hit] ->
     is_planet_name (obj_name (object c)) ->
     articles (dom pressed) !! toLowerCase (obj_name (object c)) = None) /\
  is_planet_name (obj_name (object venus_hit)) /\
  is_mouse_down (app pressed) = true /\
  initialised pressed /\
  forEach [venus_hit; sun_hit] processCollision pressed = (Ok tt, pressed) /\
  outcome (animate [venus_hit; sun_hit]) pressed = Ok tt /\
  dom (exec (animate [venus_hit; sun_hit]) pressed) = dom pressed.
Proof.
  assert (H : forall c, c ∈ [venus_hit; sun_hit] ->
                is_planet_name (obj_name (object c)) ->
                articles (dom pressed) !! toLowerCase (obj_name (object c))
                = None).
  { intros c Hc _. apply elem_of_cons in Hc as [->|Hc].
    - vm_compute. reflexivity.
    - apply list_elem_of_singleton in Hc as ->. vm_compute. reflexivity. }
  assert (Hv : is_planet_name (obj_name (object venus_hit))).
  { split; [discriminate|]. apply includes_elem. reflexivity. }
  assert (Hi : initialised pressed)
    by (repeat split; eexists; vm_compute; reflexivity).
  split; [exact H|]. split; [exact Hv|]. split; [reflexivity|].
  split; [exact Hi|].
  destruct (press_without_article [venus_hit; sun_hit] pressed H)
    as [Hpick Hframe].
  split; [exact Hpick|]. exact (Hframe Hi).
Defined.

(** The button is down over the Earth, which has an article, on the page
    without its dialog: the frame throws. *)
Lemma press_without_dialog_element_witness :
  dialog (dom without_dialog) = None /\
  initialised without_dialog /\
  is_mouse_down (app without_dialog)
  && existsb (opens_dialog (dom without_dialog)) [sun_hit; earth_hit]
  = true /\
  forEach [sun_hit; earth_hit] processCollision without_dialog
  = (Throw (TypeError "innerHTML"), without_dialog) /\
  outcome (animate [sun_hit; earth_hit]) without_dialog
  = Throw (TypeError "innerHTML") /\
  dom (exec (animate [sun_hit; earth_hit]) without_dialog)
  = dom without_dialog.
Proof.
  assert (Hd : dialog (dom without_dialog) = None)
    by (vm_compute; reflexivity).
  assert (Hi : initialised without_dialog)
    by (repeat split; eexists; vm_compute; reflexivity).
  assert (Hf : is_mouse_down (app without_dialog)
               && existsb (opens_dialog (dom without_dialog))
                    [sun_hit; earth_hit] = true)
    by (vm_compute; reflexivity).
  split; [exact Hd|]. split; [exact Hi|]. split; [exact Hf|].
  destruct (press_without_dialog_element [sun_hit; earth_hit]
              without_dialog Hd) as [Hpick Hframe].
  destruct (Hframe Hi) as [Hout Hdom]. cbv zeta in Hpick, Hout.
  rewrite Hf in Hpick, Hout.
  split; [exact Hpick|]. split; [exact Hout | exact Hdom].
Defined.

Lemma openDialog_last_wins_witness :
  let w := with_dom
             (fun d => mkDom (<["mars" := "<h2>Mars</h2>"]> (articles d))
                             (dialog d) (dialogBackground d)
                             (body_appended d))
             loaded in
  articles (dom w) !! toLowerCase "Earth" = Some "<h2>Earth</h2>" /\
  articles (dom w) !! toLowerCase "Mars" = Some "<h2>Mars</h2>" /\
  dialog_ready w /\
  exec (openDialog "Mars") (exec (openDialog "Earth") w)
  = exec (openDialog "Mars") w /\
  exec (openDialog "Earth") (exec (openDialog "Earth") w)
  = exec (openDialog "Earth") w.
Proof.
  intros w.
  assert (H1 : articles (dom w) !! toLowerCase "Earth"
               = Some "<h2>Earth</h2>") by (vm_compute; reflexivity).
  assert (H2 : articles (dom w) !! toLowerCase "Mars"
               = Some "<h2>Mars</h2>") by (vm_compute; reflexivity).
  assert (H3 : dialog_ready w)
    by (split; eexists; vm_compute; reflexivity).
  split; [exact H1|]. split; [exact H2|]. split; [exact H3|].
  exact (openDialog_last_wins "Earth" "Mars" _ _ w H1 H2 H3).
Defined.

Lemma frame_completes_witness :
  initialised loaded /\ dialog_ready loaded /\
  outcome (animate [earth_hit]) loaded = Ok tt /\
  clock (app (exec (animate [earth_hit]) loaded))
  = (if isPaused (app loaded) then clock (app loaded) else wall loaded) /\
  dialog_ready (exec (animate [earth_hit]) loaded) /\
  initialised (exec (animate [earth_hit]) loaded).
Proof.
  split; [exact loaded_initialised|]. split; [exact loaded_dialog_ready|].
  exact (frame_completes [earth_hit] loaded loaded_initialised
           loaded_dialog_ready).
Defined.

Lemma frame_shows_last_hit_witness :
  initialised pressed /\ dialog_ready pressed /\
  is_mouse_down (app pressed) = true /\
  planets !! 2%nat = Some earth_planet /\
  obj_name (object earth_hit) = name earth_planet /\
  articles (dom pressed) !! toLowerCase (name earth_planet)
  = Some "<h2>Earth</h2>" /\
  outcome (animate ([sun_hit] ++ [earth_hit])) pressed = Ok tt /\
  dialogContent (dom (exec (animate ([sun_hit] ++ [earth_hit])) pressed))
  = Some "<h2>Earth</h2>" /\
  dialogDisplay (dom (exec (animate ([sun_hit] ++ [earth_hit])) pressed))
  = Some "block".
Proof.
  assert (H1 : initialised pressed)
    by (repeat split; eexists; vm_compute; reflexivity).
  assert (H2 : dialog_ready pressed)
    by (split; eexists; vm_compute; reflexivity).
  assert (H3 : is_mouse_down (app pressed) = true) by reflexivity.
  assert (H4 : planets !! 2%nat = Some earth_planet) by reflexivity.
  assert (H5 : obj_name (object earth_hit) = name earth_planet)
    by reflexivity.
  assert (H6 : articles (dom pressed) !! toLowerCase (name earth_planet)
               = Some "<h2>Earth</h2>") by (vm_compute; reflexivity).
  repeat (split; [assumption|]).
  exact (frame_shows_last_hit [sun_hit] earth_hit 2 earth_planet
           "<h2>Earth</h2>" pressed H1 H2 H3 H4 H5 H6).
Defined.

Lemma frame_before_load_witness :
  scene (app (initial_world j2000 page)) = None /\
  animate [earth_hit] (initial_world j2000 page)
  = (Throw (TypeError "getObjectByName"), initial_world j2000 page).
Proof.
  split; [reflexivity|].
  exact (frame_before_load [earth_hit] (initial_world j2000 page) eq_refl).
Defined.


Lemma frames_lag_by_one_witness :
  let f1 : Frame := (later, []) in
  let f2 : Frame := (new_Date 946728032000, []) in
  initialised loaded /\ dialog_ready loaded /\
  isPaused (app loaded) = false /\
  clock (app (run_frame f1 loaded)) = fst f1 /\
  scene (app (run_frame f2 (run_frame f1 loaded)))
  = publish (catalog loaded) (fst f1) planets
      <$> scene (app (run_frame f1 loaded)).
Proof.
  intros f1 f2.
  assert (H : isPaused (app loaded) = false) by (vm_compute; reflexivity).
  split; [exact loaded_initialised|]. split; [exact loaded_dialog_ready|].
  split; [exact H|].
  exact (frames_lag_by_one f1 f2 loaded
           loaded_initialised loaded_dialog_ready H).
Defined.

Lemma loaded_planets_are_found_witness :
  planets !! 2%nat = Some earth_planet /\
  exists children,
    scene (app loaded) = Some children /\
    length children = 18%nat /\
    getObjectByName children (name earth_planet) = Some (2 + 2 * 2)%nat /\
    children !! (2 + 2 * 2)%nat
    = Some (mkObject3D (name earth_planet)
              (mkVector3 (spatialScale * semiMajorAxis_km earth_planet)
                         (spatialScale * 0) (spatialScale * 0))
              (mkVector3 2 2 2)
              (SphereGeometry (1e2 * radius_km earth_planet) 32 32)
              (Some (approximateColor_hex earth_planet))).
Proof.
  assert (H : planets !! 2%nat = Some earth_planet) by reflexivity.
  split; [exact H|].
  exact (loaded_planets_are_found CATALOG 1920 1080 true (fun _ => j2000)
           (initial_world j2000 page) 2 earth_planet H).
Defined.

Lemma fallback_planet_never_moves_witness :
  planets !! 1%nat = Some venus_planet /\
  CATALOG !! toLowerCase (name venus_planet) = None /\
  let w :=
    run_frames ten_frames
      (exec (onWindowLoad (Some CATALOG) 1920 1080 true (fun _ => j2000))
            (initial_world j2000 page)) in
  exists children,
    scene (app w) = Some children /\
    children !! (2 + 2 * 1)%nat = Some (planet_mesh venus_planet) /\
    children !! 1%nat
    = Some (mkObject3D "Sun" origin unit_scale (SphereGeometry 7e5 32 32)
              (Some 0xffff55%Z)).
Proof.
  assert (H1 : planets !! 1%nat = Some venus_planet) by reflexivity.
  assert (H2 : CATALOG !! toLowerCase (name venus_planet) = None)
    by (vm_compute; reflexivity).
  split; [exact H1|]. split; [exact H2|].
  exact (fallback_planet_never_moves CATALOG 1920 1080 true
           (fun _ => j2000) (initial_world j2000 page) ten_frames 1
           venus_planet H1 H2).
Defined.

(** The ways the load handler can end, and what the first frame does
    then. *)
Example load_outcomes :
  let start := initial_world j2000 page in
  outcome (onWindowLoad (Some CATALOG) 1920 1080 true (fun _ => j2000)) start
  = Ok tt /\
  outcome (animate [])
    (exec (onWindowLoad None 1920 1080 true (fun _ => j2000)) start)
  = Throw (TypeError "getObjectByName") /\
  outcome (animate [])
    (exec (onWindowLoad (Some CATALOG) 1920 1080 false (fun _ => j2000))
          start)
  = Throw (TypeError "update").
Proof. repeat split; vm_compute; reflexivity. Qed.

(** The trace of Mars built sixteen seconds after that of the Earth starts
    sixteen seconds later. *)
Example traces_take_their_own_time :
  let trace_time (p : Planet) :=
    if String.eqb (name p) "Mars" then later else j2000 in
  let w :=
    exec (onWindowLoad (Some CATALOG) 1920 1080 true trace_time)
         (initial_world j2000 page) in
  match children_of w !! 7%nat, children_of w !! 9%nat with
  | Some earth_trace, Some mars_trace =>
      match geometry earth_trace, geometry mars_trace with
      | BufferGeometry (p :: _), BufferGeometry (q :: _) =>
          vy p = (spatialScale * 946728000000)%float /\
          vy q = (spatialScale * 946728016000)%float
      | _, _ => False
      end
  | _, _ => False
  end.
Proof. vm_compute. split; reflexivity. Qed.

Lemma entry_under_other_case_is_ignored_witness :
  toLowerCase "Venus" <> "Venus" /\
  let w' := with_catalog (<["Venus" := earth]> (catalog loaded)) loaded in
  (forall radius n,
     outcome (buildOrbitTrace radius n) w'
     = outcome (buildOrbitTrace radius n) loaded) /\
  (forall hits,
     scene (app (exec (animate hits) w'))
     = scene (app (exec (animate hits) loaded))).
Proof.
  assert (H : toLowerCase "Venus" <> "Venus")
    by (intros E; vm_compute in E; discriminate E).
  split; [exact H|].
  exact (entry_under_other_case_is_ignored "Venus" earth loaded H).
Defined.

Lemma placeholder_is_static_witness :
  let SP' := StandardSolarplanets (fun _ _ => (origin, origin)) in
  catalog loaded !! toLowerCase "Venus" = None /\
  catalog (initial_world later page) !! toLowerCase "Venus" = None /\
  outcome (@buildOrbitTrace RefMath DriftSolarplanets 108.21e6 "Venus")
          loaded
  = outcome (@buildOrbitTrace RefMath SP' 108.21e6 "Venus")
            (initial_world later page).
Proof.
  intros SP'.
  assert (H1 : catalog loaded !! toLowerCase "Venus" = None)
    by (vm_compute; reflexivity).
  assert (H2 : catalog (initial_world later page) !! toLowerCase "Venus"
               = None) by (vm_compute; reflexivity).
  split; [exact H1|]. split; [exact H2|].
  exact (placeholder_is_static DriftSolarplanets SP' 108.21e6 "Venus"
           loaded (initial_world later page) H1 H2).
Defined.

Lemma catalog_trace_ignores_radius_witness :
  catalog loaded !! toLowerCase "Earth" = Some earth /\
  buildOrbitTrace 1.49898023e8 "Earth" loaded
  = buildOrbitTrace 1 "Earth" loaded.
Proof.
  assert (H : catalog loaded !! toLowerCase "Earth" = Some earth)
    by (vm_compute; reflexivity).
  split; [exact H|].
  exact (catalog_trace_ignores_radius 1.49898023e8 1 "Earth" loaded earth H).
Defined.

Lemma getJdFromDatetime_calendar_witness :
  to_Z (valueOf j2000) = Some 946728000000 /\
  valid_time 946728000000 /\
  exists y m d H M s ms : Z,
    calendar_fields y m d H M s ms /\
    time_value y m d H M s ms = 946728000000 /\
    (forall y' m' d' H' M' s' ms',
       calendar_fields y' m' d' H' M' s' ms' ->
       time_value y' m' d' H' M' s' ms' = 946728000000 ->
       (y', m', d', H', M', s', ms') = (y, m, d, H, M, s, ms)) /\
    (DayFromYear 1970 = 0 /\
     forall y0,
       DayFromYear (y0 + 1)
       = DayFromYear y0 + if is_leap_year y0 then 366 else 365) /\
    getJdFromDatetime j2000
    = getJdFromDateTime
        (getJ0FromDatevec (of_Z y) (of_Z m) (of_Z d))
        (getUtFromTimevec (of_Z H) (of_Z M)
           (of_Z s + of_Z ms * 1e-3)%float).
Proof.
  assert (H1 : to_Z (valueOf j2000) = Some 946728000000)
    by (vm_compute; reflexivity).
  assert (H2 : valid_time 946728000000) by (unfold valid_time; lia).
  split; [exact H1|]. split; [exact H2|].
  exact (getJdFromDatetime_calendar j2000 946728000000 H1 H2).
Defined.

(** The first of March of a leap year and of a common year, and the last
    day of a year. *)
Example calendar_dates :
  time_value 2000 3 1 0 0 0 0 = 951868800000 /\
  (YearFromTime 951868800000, MonthFromTime 951868800000 + 1,
   DateFromTime 951868800000) = (2000, 3, 1) /\
  (YearFromTime 983404800000, MonthFromTime 983404800000 + 1,
   DateFromTime 983404800000) = (2001, 3, 1) /\
  (YearFromTime 978307199999, MonthFromTime 978307199999 + 1,
   DateFromTime 978307199999) = (2000, 12, 31).
Proof. repeat split; vm_compute; reflexivity. Qed.

Lemma getJdFromDatetime_invalid_witness :
  to_Z (valueOf (new_Date 1e16)) = None /\
  getJdFromDatetime (new_Date 1e16)
  = getJdFromDateTime (getJ0FromDatevec nan nan nan)
                      (getUtFromTimevec nan nan nan).
Proof.
  assert (H : to_Z (valueOf (new_Date 1e16)) = None)
    by (vm_compute; reflexivity).
  split; [exact H|]. exact (getJdFromDatetime_invalid (new_Date 1e16) H).
Defined.

End FurtherEvaluation.
